(** * Mero AI personality matcher: a shallow embedding of [mcp_starter.py]

    The development follows the source file top to bottom:

    - [B64]: Python's [float] is IEEE 754 binary64; its arithmetic is the
      standard library's executable specification [SpecFloat] at precision
      53 and maximal exponent 1024.
    - [Py]: the dynamically typed values that [json.loads] produces, the
      exceptions the interpreter raises, and the few built-in operations
      the source uses ([*], [+], [/], [math.sqrt], [sum], truth value,
      subscription, [str.join], [round]).
    - the machine: the repetition of a sequence by an int is the one
      operation whose result can outgrow its operands, and whether the
      interpreter obtains the memory for it is a parameter of everything
      that follows.
    - [custom_cosine_similarity], the match scan of [mero_ai] and [mero_ai]
      itself, as functions over an explicit state (the two module globals)
      that keeps every mutation made before an exception is raised.
    - the properties of the specification, proved or refuted on these
      definitions.

    What lies outside the source file is a parameter or is left out: the
    generative model and [json.loads] are parameters of
    [analyze_text_with_gemini], whose result [mero_ai] takes as an
    argument, and the [validate] tool only reads the environment.  The
    text of the replies is represented by the values interpolated into
    it. *)

From Stdlib Require Import ZArith Lia List Bool String Ascii.
From Stdlib Require Import Floats.SpecFloat.
Import ListNotations.

Local Open Scope string_scope.
Local Open Scope Z_scope.
#[local] Set Warnings "-register-all".

(* ================================================================== *)
(** ** binary64 arithmetic *)
(* ================================================================== *)

Module B64.

Definition prec : Z := 53.
Definition emax : Z := 1024.

Definition mul := SFmul prec emax.
Definition add := SFadd prec emax.
Definition div := SFdiv prec emax.
Definition sqrt := SFsqrt prec emax.
Definition ltb := SFltb.
Definition leb := SFleb.
Definition eqb := SFeqb.

(** [float(n)] for a Python int: round to nearest even. *)
Definition of_Z (n : Z) : spec_float := binary_normalize prec emax n 0 false.

Definition zero : spec_float := S754_zero false.

Definition is_zero (x : spec_float) : bool :=
  match x with S754_zero _ => true | _ => false end.

Definition is_infinity (x : spec_float) : bool :=
  match x with S754_infinity _ => true | _ => false end.

(** The sign bit is clear or the number is a zero or a NaN: the numbers
    [math.sqrt] accepts. *)
Definition sqrt_domain (x : spec_float) : bool :=
  match x with
  | S754_finite true _ _ | S754_infinity true => false
  | _ => true
  end.

(** No finite number lies below the subnormal range. *)
Definition above_emin (x : spec_float) : Prop :=
  match x with
  | S754_finite _ _ e => emin prec emax <= e
  | _ => True
  end.

(** A number of magnitude at least 2^-537 (or infinite, or NaN): what a
    square root of a non-zero binary64 number always is. *)
Definition large (x : spec_float) : Prop :=
  match x with
  | S754_zero _ => False
  | S754_finite _ m e => -536 <= Zpos (digits2_pos m) + e
  | _ => True
  end.

(** Signed mantissa. *)
Definition signed (s : bool) (m : positive) : Z :=
  if s then Zneg m else Zpos m.

(** Exact comparison [x > n] of a float with an integer. *)
Definition gt_Z (x : spec_float) (n : Z) : bool :=
  match x with
  | S754_nan => false
  | S754_infinity s => negb s
  | S754_zero _ => n <? 0
  | S754_finite s m e =>
      if 0 <=? e then n <? signed s m * 2 ^ e
      else n * 2 ^ (- e) <? signed s m
  end.

(** Exact comparison [x == n] of a float with an integer. *)
Definition eq_Z (x : spec_float) (n : Z) : bool :=
  match x with
  | S754_zero _ => n =? 0
  | S754_finite s m e =>
      if 0 <=? e then signed s m * 2 ^ e =? n
      else signed s m =? n * 2 ^ (- e)
  | _ => false
  end.

(** [round(x)] on a finite float: the nearest integer, ties to even. *)
Definition round_half_even (s : bool) (m : positive) (e : Z) : Z :=
  if 0 <=? e then signed s m * 2 ^ e
  else
    let d := 2 ^ (- e) in
    let q := Zpos m / d in
    let r := Zpos m mod d in
    let q' := match 2 * r ?= d with
              | Lt => q
              | Gt => q + 1
              | Eq => if Z.even q then q else q + 1
              end in
    if s then - q' else q'.

End B64.

(* ================================================================== *)
(** ** Python values, exceptions and built-in operations *)
(* ================================================================== *)

Module Py.

(** What [json.loads] returns: [None], [bool], [int], [float], [str],
    [list], and [dict] with string keys in insertion order.  An [int] is
    unbounded; the characters of a [str] are those of [string]. *)
Inductive pyval : Type :=
| PNone
| PBool (b : bool)
| PInt (n : Z)
| PFloat (f : spec_float)
| PStr (s : string)
| PList (l : list pyval)
| PDict (d : list (string * pyval)).

Inductive exn : Type :=
| TypeError | KeyError | ValueError | OverflowError | ZeroDivisionError
| MemoryError.

Inductive result (A : Type) : Type :=
| Ok (a : A)
| Raise (e : exn).
Arguments Ok {A} a.
Arguments Raise {A} e.

Definition bind {A B} (r : result A) (k : A -> result B) : result B :=
  match r with
  | Ok a => k a
  | Raise e => Raise e
  end.

(** The numeric tower restricted to what JSON yields; [bool] is a
    subtype of [int]. *)
Inductive pynum : Type :=
| NInt (n : Z)
| NFloat (f : spec_float).

Definition as_num (v : pyval) : option pynum :=
  match v with
  | PBool b => Some (NInt (if b then 1 else 0))
  | PInt n => Some (NInt n)
  | PFloat f => Some (NFloat f)
  | _ => None
  end.

Definition of_num (x : pynum) : pyval :=
  match x with
  | NInt n => PInt n
  | NFloat f => PFloat f
  end.

(** [float(n)]: OverflowError when the int is too large for a float. *)
Definition to_float (n : Z) : result spec_float :=
  let f := B64.of_Z n in
  if B64.is_infinity f then Raise OverflowError else Ok f.

Definition num_to_float (x : pynum) : result spec_float :=
  match x with
  | NInt n => to_float n
  | NFloat f => Ok f
  end.

(** A binary arithmetic operator on numbers: exact on two ints, and on
    floats after converting an int operand. *)
Definition arith (fz : Z -> Z -> Z) (ff : spec_float -> spec_float -> spec_float)
           (x y : pynum) : result pynum :=
  match x, y with
  | NInt a, NInt b => Ok (NInt (fz a b))
  | _, _ =>
      bind (num_to_float x) (fun a =>
      bind (num_to_float y) (fun b =>
      Ok (NFloat (ff a b))))
  end.

(** The largest index of the interpreter, on a 64-bit build. *)
Definition PY_SSIZE_T_MAX : Z := 2 ^ 63 - 1.

Definition index_sized (count : Z) : bool :=
  (- PY_SSIZE_T_MAX - 1 <=? count) && (count <=? PY_SSIZE_T_MAX).

Fixpoint repeat_string (count : nat) (s : string) : string :=
  match count with
  | O => EmptyString
  | S k => (s ++ repeat_string k s)%string
  end.

(** [seq * count] and [count * seq] for an int [count]: a str or a list
    is repeated.  A count that is not index-sized is an OverflowError; a
    count below 1 gives the empty sequence and the count 1 leaves a str
    as it is; a result longer than the largest index is an OverflowError
    for a str and a MemoryError for a list; an empty result needs no
    memory.  Otherwise the result has to be allocated, and
    [can_allocate seq count] tells whether the machine has the memory for
    it: MemoryError is raised when it has not.  Nothing but a str or a
    list can be repeated. *)
Definition py_repeat (can_allocate : pyval -> Z -> bool)
           (seq : pyval) (count : Z) : result pyval :=
  match seq with
  | PStr s =>
      if negb (index_sized count) then Raise OverflowError
      else if count <? 1 then Ok (PStr EmptyString)
      else if count =? 1 then Ok seq
      else if PY_SSIZE_T_MAX / count <? Z.of_nat (String.length s)
      then Raise OverflowError
      else if Nat.eqb (String.length s) 0 then Ok (PStr EmptyString)
      else if can_allocate seq count
      then Ok (PStr (repeat_string (Z.to_nat count) s))
      else Raise MemoryError
  | PList l =>
      if negb (index_sized count) then Raise OverflowError
      else if (count <? 1) || Nat.eqb (List.length l) 0 then Ok (PList [])
      else if PY_SSIZE_T_MAX / count <? Z.of_nat (List.length l)
      then Raise MemoryError
      else if can_allocate seq count
      then Ok (PList (List.concat (List.repeat l (Z.to_nat count))))
      else Raise MemoryError
  | _ => Raise TypeError
  end.

(** [v + w]: two numbers are added, two strs and two lists are
    concatenated; no other operands can be added.  [sum] adds every term
    to an accumulator that starts at the int [0], so that a term that is
    not a number is a TypeError there. *)
Definition py_add (v w : pyval) : result pyval :=
  match as_num v, as_num w with
  | Some x, Some y => bind (arith Z.add B64.add x y) (fun r => Ok (of_num r))
  | _, _ =>
      match v, w with
      | PStr s, PStr t => Ok (PStr (s ++ t))
      | PList l, PList m => Ok (PList (l ++ m))
      | _, _ => Raise TypeError
      end
  end.

(** [math.sqrt(v)]: the argument is converted to a float; a negative
    argument is a math domain error. *)
Definition math_sqrt (v : pyval) : result spec_float :=
  match as_num v with
  | Some x =>
      bind (num_to_float x) (fun f =>
      if B64.sqrt_domain f then Ok (B64.sqrt f) else Raise ValueError)
  | None => Raise TypeError
  end.

(** [v / f] with a float divisor. *)
Definition py_truediv (v : pyval) (f : spec_float) : result spec_float :=
  match as_num v with
  | Some x =>
      bind (num_to_float x) (fun a =>
      if B64.is_zero f then Raise ZeroDivisionError else Ok (B64.div a f))
  | None => Raise TypeError
  end.

(** Truth value of a float: zero (of either sign) is false, NaN is true. *)
Definition float_truthy (f : spec_float) : bool := negb (B64.is_zero f).

Definition py_truthy (v : pyval) : bool :=
  match v with
  | PNone => false
  | PBool b => b
  | PInt n => negb (n =? 0)
  | PFloat f => float_truthy f
  | PStr s => negb (String.eqb s EmptyString)
  | PList l => match l with [] => false | _ => true end
  | PDict d => match d with [] => false | _ => true end
  end.

(** Iteration: a list yields its items, a str its characters, a dict its
    keys; anything else is not iterable. *)
Fixpoint chars (s : string) : list string :=
  match s with
  | EmptyString => []
  | String c r => String c EmptyString :: chars r
  end.

Definition py_iter (v : pyval) : result (list pyval) :=
  match v with
  | PList l => Ok l
  | PStr s => Ok (map PStr (chars s))
  | PDict d => Ok (map (fun kv => PStr (fst kv)) d)
  | _ => Raise TypeError
  end.

(** [sum(f(x) for x in xs)]: the generator is consumed lazily, each term
    is added to the accumulator, which starts at the int [0], before the
    next term is computed.  The additions are the ones of [+], from left
    to right, as the language defines [sum]; an interpreter that
    compensates the rounding errors of a float sum (CPython from 3.12 on)
    may return a sum that differs in its last bits. *)
Fixpoint sum_from {A} (f : A -> result pyval) (xs : list A) (acc : pyval)
  : result pyval :=
  match xs with
  | [] => Ok acc
  | x :: rest =>
      bind (f x) (fun t =>
      bind (py_add acc t) (fun acc' =>
      sum_from f rest acc'))
  end.

Definition py_sum {A} (f : A -> result pyval) (xs : list A) : result pyval :=
  sum_from f xs (PInt 0).

(** Dictionaries. *)
Fixpoint lookup (k : string) (d : list (string * pyval)) : option pyval :=
  match d with
  | [] => None
  | (k', v) :: rest => if String.eqb k k' then Some v else lookup k rest
  end.

Fixpoint store_key (k : string) (v : pyval) (d : list (string * pyval))
  : list (string * pyval) :=
  match d with
  | [] => [(k, v)]
  | (k', v') :: rest =>
      if String.eqb k k' then (k, v) :: rest else (k', v') :: store_key k v rest
  end.

(** [v[k]] with a string key: only a dict accepts it. *)
Definition py_getitem (v : pyval) (k : string) : result pyval :=
  match v with
  | PDict d => match lookup k d with
               | Some x => Ok x
               | None => Raise KeyError
               end
  | _ => Raise TypeError
  end.

(** [v[k] = x] with a string key. *)
Definition py_setitem (v : pyval) (k : string) (x : pyval) : result pyval :=
  match v with
  | PDict d => Ok (PDict (store_key k x d))
  | _ => Raise TypeError
  end.

(** [v != n] for an int [n]. *)
Definition py_ne_int (v : pyval) (n : Z) : bool :=
  match as_num v with
  | Some (NInt m) => negb (m =? n)
  | Some (NFloat f) => negb (B64.eq_Z f n)
  | None => true
  end.

(** [x > y] for a float [x]: against a float the IEEE comparison,
    against an int of at most 48 bits the comparison with the int
    converted (exactly) to a float, against a larger int the exact
    one. *)
Definition float_gt (x : spec_float) (y : pynum) : bool :=
  match y with
  | NFloat g => B64.ltb g x
  | NInt n =>
      if Z.abs n <? 2 ^ 48 then B64.ltb (B64.of_Z n) x else B64.gt_Z x n
  end.

(** [sep.join(v)]: the items of the iterable must all be strings. *)
Fixpoint join_strs (sep : string) (items : list pyval) : result string :=
  match items with
  | [] => Ok EmptyString
  | PStr s :: rest =>
      match rest with
      | [] => Ok s
      | _ => bind (join_strs sep rest) (fun t => Ok (s ++ sep ++ t)%string)
      end
  | _ => Raise TypeError
  end.

Definition py_join (sep : string) (v : pyval) : result string :=
  bind (py_iter v) (join_strs sep).

(** [round(x)] of a number: an int stays, a float goes to the nearest
    integer; infinities and NaN cannot be converted. *)
Definition py_round (x : pynum) : result Z :=
  match x with
  | NInt n => Ok n
  | NFloat f =>
      match f with
      | S754_nan => Raise ValueError
      | S754_infinity _ => Raise OverflowError
      | S754_zero _ => Ok 0
      | S754_finite s m e => Ok (B64.round_half_even s m e)
      end
  end.

End Py.
Import Py.

Notation "x <- c1 ;; c2" := (bind c1 (fun x => c2))
  (at level 61, c1 at next level, right associativity).

(* ================================================================== *)
(** ** The machine *)
(* ================================================================== *)

Section Machine.

(** The items of a vector come from [json.loads] and nothing checks
    them: when one is an int and its partner a str or a list, line 21
    repeats the sequence, and the memory this takes is not bounded by
    the size of the operands.  [can_allocate seq count] is the answer of
    the machine to the request for [count] copies of [seq].  The
    definitions and theorems of this section hold for every machine. *)
Variable can_allocate : pyval -> Z -> bool.

(** [v * w]: two numbers are multiplied; an int or a bool and a str or a
    list, in either order, repeat the sequence; no other operands can be
    multiplied. *)
Definition py_mul (v w : pyval) : result pyval :=
  match as_num v, as_num w with
  | Some x, Some y => bind (arith Z.mul B64.mul x y) (fun r => Ok (of_num r))
  | Some x, None =>
      match x with
      | NInt count => py_repeat can_allocate w count
      | NFloat _ => Raise TypeError
      end
  | None, Some y =>
      match y with
      | NInt count => py_repeat can_allocate v count
      | NFloat _ => Raise TypeError
      end
  | None, None => Raise TypeError
  end.

(* ================================================================== *)
(** ** [custom_cosine_similarity] *)
(* ================================================================== *)

Definition custom_cosine_similarity (vec1 vec2 : pyval) : result spec_float :=
  xs1 <- py_iter vec1 ;;
  xs2 <- py_iter vec2 ;;
  dot_product <- py_sum (fun pq => py_mul (fst pq) (snd pq)) (combine xs1 xs2) ;;
  sq1 <- py_sum (fun p => py_mul p p) xs1 ;;
  magnitude1 <- math_sqrt sq1 ;;
  sq2 <- py_sum (fun q => py_mul q q) xs2 ;;
  magnitude2 <- math_sqrt sq2 ;;
  if negb (float_truthy magnitude1) || negb (float_truthy magnitude2)
  then Ok B64.zero
  else py_truediv dot_product (B64.mul magnitude1 magnitude2).

(* ================================================================== *)
(** ** The module globals and [mero_ai] *)
(* ================================================================== *)

(** [user_profiles_memory] and [USER_ID_COUNTER]. *)
Record state : Type := {
  user_profiles_memory : list pyval;
  USER_ID_COUNTER : Z
}.

Definition initial_state : state :=
  {| user_profiles_memory := []; USER_ID_COUNTER := 0 |}.

(** The value [mero_ai] returns.  The message is represented by the parts
    the f-strings are built from: [Sorry] is the fixed text of line 70;
    [Sensing interests_output connection] is the message of lines 93-110,
    with [Some (id, percent)] for the "Connection Found!" paragraph and
    [None] for the "You're one of the first to use Mero AI!" paragraph. *)
Inductive reply : Type :=
| Sorry
| Sensing (interests_output : string) (connection : option (pyval * Z)).

(** The initial [best_match] and [highest_similarity] (lines 79-80). *)
Definition no_match : pyval * pynum := (PNone, NInt (-1)).

(** One iteration of the loop of lines 83-88; [acc] holds [best_match] and
    [highest_similarity]. *)
Definition scan_step (profile : pyval) (new_user_id : Z)
           (acc : pyval * pynum) (other_profile : pyval)
  : result (pyval * pynum) :=
  other_id <- py_getitem other_profile "id" ;;
  if py_ne_int other_id new_user_id then
    vec1 <- py_getitem profile "personality_vector" ;;
    vec2 <- py_getitem other_profile "personality_vector" ;;
    similarity <- custom_cosine_similarity vec1 vec2 ;;
    if float_gt similarity (snd acc)
    then Ok (other_profile, NFloat similarity)
    else Ok acc
  else Ok acc.

Fixpoint scan (profile : pyval) (new_user_id : Z) (profiles : list pyval)
         (acc : pyval * pynum) : result (pyval * pynum) :=
  match profiles with
  | [] => Ok acc
  | other_profile :: rest =>
      acc' <- scan_step profile new_user_id acc other_profile ;;
      scan profile new_user_id rest acc'
  end.

(** Lines 79-88: the best match of [profile] among the stored profiles. *)
Definition find_best_match (profile : pyval) (new_user_id : Z)
           (memory : list pyval) : result (pyval * pynum) :=
  if 1 <? Z.of_nat (List.length memory)
  then scan profile new_user_id memory no_match
  else Ok no_match.

(** Lines 72-91: the profile receives the next identifier and is stored,
    the best match is searched, the interests are joined.  The result
    holds [best_match], [highest_similarity] and [interests_output]; the
    state returned with an exception is the state at the point where it
    was raised. *)
Definition ingest (profile : pyval) (st : state)
  : result (pyval * pynum * string) * state :=
  let counter := USER_ID_COUNTER st + 1 in
  let new_user_id := counter in
  match py_setitem profile "id" (PInt new_user_id) with
  | Raise e =>
      (Raise e, {| user_profiles_memory := user_profiles_memory st;
                   USER_ID_COUNTER := counter |})
  | Ok profile =>
      let memory := (user_profiles_memory st ++ [profile])%list in
      (found <- find_best_match profile new_user_id memory ;;
       interests <- py_getitem profile "interests" ;;
       interests_output <- py_join ", " interests ;;
       Ok (fst found, snd found, interests_output),
       {| user_profiles_memory := memory; USER_ID_COUNTER := counter |})
  end.

(** Lines 93-110: the message. *)
Definition respond (ingested : pyval * pynum * string) : result reply :=
  let '(best_match, highest_similarity, interests_output) := ingested in
  if py_truthy best_match then
    scaled <- arith Z.mul B64.mul highest_similarity (NInt 100) ;;
    similarity_percent <- py_round scaled ;;
    match_id <- py_getitem best_match "id" ;;
    Ok (Sensing interests_output (Some (match_id, similarity_percent)))
  else Ok (Sensing interests_output None).

(** [mero_ai(user_text)], given the value [analysis] that
    [analyze_text_with_gemini(user_text)] returned ([PNone] when the call
    failed). *)
Definition mero_ai (analysis : pyval) (st : state) : result reply * state :=
  let profile := analysis in
  if negb (py_truthy profile) then (Ok Sorry, st)
  else
    let (ingested, st') := ingest profile st in
    (x <- ingested ;; respond x, st').

(** Successive calls within one process: the replies, oldest first, and
    the final state. *)
Fixpoint run (analyses : list pyval) (st : state)
  : list (result reply) * state :=
  match analyses with
  | [] => ([], st)
  | a :: rest =>
      let (r, st') := mero_ai a st in
      let (rs, st'') := run rest st' in
      (r :: rs, st'')
  end.

(* ================================================================== *)
(** ** Vocabulary of the properties *)
(* ================================================================== *)

(** A vector of floats as a Python list. *)
Definition floats (a : list spec_float) : pyval := PList (map PFloat a).

(** The similarity of section 4.2 of the specification on vectors of
    floats, [dot(a, b) / (norm(a) * norm(b))] with the zero-norm policy.
    Sums run from left to right. *)
Definition fsum (terms : list spec_float) : spec_float :=
  fold_left B64.add terms B64.zero.

Definition dot (a b : list spec_float) : spec_float :=
  fsum (map (fun pq => B64.mul (fst pq) (snd pq)) (combine a b)).

Definition norm (a : list spec_float) : spec_float :=
  B64.sqrt (fsum (map (fun p => B64.mul p p) a)).

Definition spec_similarity (a b : list spec_float) : spec_float :=
  if B64.is_zero (norm a) || B64.is_zero (norm b) then B64.zero
  else B64.div (dot a b) (B64.mul (norm a) (norm b)).

(** [int], [bool] and [float] items. *)
Definition is_number (v : pyval) : bool :=
  match as_num v with Some _ => true | None => false end.

Definition is_float (v : pyval) : bool :=
  match v with PFloat _ => true | _ => false end.

Definition is_str (v : pyval) : bool :=
  match v with PStr _ => true | _ => false end.

Definition is_dict (v : pyval) : bool :=
  match v with PDict _ => true | _ => false end.

(** The analyzer result the prompt asks for: a JSON object with a list
    of floats under "personality_vector" and a list of strings under
    "interests". *)
Definition well_formed (profile : pyval) : bool :=
  match profile with
  | PDict d =>
      match lookup "personality_vector" d, lookup "interests" d with
      | Some (PList vec), Some (PList interests) =>
          forallb is_float vec && forallb is_str interests
      | _, _ => false
      end
  | _ => false
  end.

(** The identifier a stored profile carries. *)
Definition profile_id (profile : pyval) : option Z :=
  match py_getitem profile "id" with
  | Ok (PInt k) => Some k
  | _ => None
  end.

Definition has_id (profile : pyval) : bool :=
  match profile_id profile with Some _ => true | None => false end.

(** The candidates of a scan are the stored profiles whose id differs
    from the new one; the score of a candidate is its similarity to the
    new profile. *)
Definition candidate (new_user_id : Z) (other_profile : pyval) : bool :=
  match py_getitem other_profile "id" with
  | Ok other_id => py_ne_int other_id new_user_id
  | Raise _ => false
  end.

Definition score (profile other_profile : pyval) : result spec_float :=
  vec1 <- py_getitem profile "personality_vector" ;;
  vec2 <- py_getitem other_profile "personality_vector" ;;
  custom_cosine_similarity vec1 vec2.

(** The identifiers 1, 2, ..., n. *)
Definition first_ids (n : nat) : list Z := map Z.of_nat (seq 1 n).

(** Some floats and profiles used in the examples. *)
Definition one : spec_float := B64.of_Z 1.
Definition minus_one : spec_float := B64.of_Z (-1).

Definition profile_of (vec : list pyval) (interests : list string) : pyval :=
  PDict [("personality_vector", PList vec);
         ("interests", PList (map PStr interests))].

Definition squares (a : list spec_float) : list spec_float :=
  map (fun p => B64.mul p p) a.

(** What a sum of squares can be: a non-negative int, or a float in the
    domain of [math.sqrt] and in the format's exponent range. *)
Definition sqrt_ready (v : pyval) : Prop :=
  match v with
  | PInt n => 0 <= n
  | PFloat f => B64.sqrt_domain f = true /\ B64.above_emin f
  | _ => False
  end.

(** The exceptions arithmetic on JSON values can raise. *)
Definition arithmetic_error (e : exn) : Prop :=
  e = TypeError \/ e = OverflowError \/ e = MemoryError.

(** A magnitude: a zero, or a float of at least 2^-537. *)
Definition magnitude_like (m : spec_float) : Prop :=
  B64.is_zero m = true \/ B64.large m.

(** The magnitude of lines 22-23, and the dot product of line 21, on the
    items of the arguments. *)
Definition magnitude (xs : list pyval) : result spec_float :=
  sq <- py_sum (fun p => py_mul p p) xs ;; math_sqrt sq.

Definition dot_product_of (xs1 xs2 : list pyval) : result pyval :=
  py_sum (fun pq => py_mul (fst pq) (snd pq)) (combine xs1 xs2).

(** The scan has met no candidate scoring above the initial -1. *)
Definition none_above_initial (profile : pyval) (new_user_id : Z)
           (profiles : list pyval) : Prop :=
  forall j c sj,
    nth_error profiles j = Some c -> candidate new_user_id c = true ->
    score profile c = Ok sj -> float_gt sj (NInt (-1)) = false.

(** The candidate at position [i], of score [s], is the first of the
    highest score: no candidate scores above [s], and no candidate before
    position [i] scores [s] or above. *)
Definition first_highest (profile : pyval) (new_user_id : Z)
           (profiles : list pyval) (i : nat) (s : spec_float) : Prop :=
  forall j c sj,
    nth_error profiles j = Some c -> candidate new_user_id c = true ->
    score profile c = Ok sj ->
    B64.ltb s sj = false /\ ((j < i)%nat -> B64.leb s sj = false).

(** What the scan holds after the profiles [seen]. *)
Definition scan_invariant (profile : pyval) (new_user_id : Z)
           (seen : list pyval) (acc : pyval * pynum) : Prop :=
  (acc = no_match /\ none_above_initial profile new_user_id seen)
  \/ (exists i s,
        nth_error seen i = Some (fst acc) /\
        candidate new_user_id (fst acc) = true /\
        score profile (fst acc) = Ok s /\
        snd acc = NFloat s /\
        float_gt s (NInt (-1)) = true /\
        first_highest profile new_user_id seen i s).

(** A stored profile of the expected shape. *)
Definition stored_ok (profile : pyval) : bool :=
  well_formed profile && has_id profile.

(** The identifiers of the stored profiles, in store order. *)
Definition stored_ids (st : state) : list (option Z) :=
  map profile_id (user_profiles_memory st).

(** [lo < k1 < k2 < ...]. *)
Fixpoint increasing (lo : Z) (ks : list Z) : bool :=
  match ks with
  | [] => true
  | k :: rest => (lo <? k) && increasing k rest
  end.

(** Every analyzer result of the run that passes the check of line 69
    is a JSON object. *)
Definition objects_only (analyses : list pyval) : bool :=
  forallb (fun a => negb (py_truthy a) || is_dict a) analyses.

(** The identifiers in the store are strictly increasing from above 0
    and bounded by the counter. *)
Definition ids_increasing (st : state) : Prop :=
  exists ks,
    stored_ids st = map Some ks /\
    increasing 0 ks = true /\
    Forall (fun k => k <= USER_ID_COUNTER st) ks.

(** When no identifier is lost the store holds 1, 2, ..., n. *)
Definition ids_consecutive (st : state) : Prop :=
  USER_ID_COUNTER st = Z.of_nat (List.length (user_profiles_memory st)) /\
  stored_ids st = map Some (first_ids (List.length (user_profiles_memory st))).

(** Example vectors and analyzer results. *)
Definition axis1 : list spec_float := [one; B64.zero; B64.zero; B64.zero; B64.zero].
Definition axis2 : list spec_float := [B64.zero; one; B64.zero; B64.zero; B64.zero].
Definition opposite1 : list spec_float :=
  [minus_one; B64.zero; B64.zero; B64.zero; B64.zero].
Definition zeros5 : list spec_float :=
  [B64.zero; B64.zero; B64.zero; B64.zero; B64.zero].

Definition alice : pyval := profile_of (map PFloat axis1) ["chess"].
Definition bob : pyval := profile_of (map PFloat axis1) ["tea"].
Definition carol : pyval := profile_of (map PFloat axis2) ["jazz"].
Definition dave : pyval := profile_of (map PFloat axis1) ["hiking"; "film"].
Definition erin : pyval := profile_of (map PFloat opposite1) ["opera"].

(** Two machines for the examples: one grants every repetition, the
    other refuses every repetition. *)
Definition ample_memory : pyval -> Z -> bool := fun _ _ => true.
Definition no_memory : pyval -> Z -> bool := fun _ _ => false.

(** The same profiles as they are stored, with their identifiers. *)
Definition with_id (k : Z) (profile : pyval) : pyval :=
  match py_setitem profile "id" (PInt k) with
  | Ok p => p
  | Raise _ => profile
  end.

(* ================================================================== *)
(** ** [analyze_text_with_gemini] *)
(* ================================================================== *)

(** The answer of the model is a [str]; it is modelled as a string of
    characters below 256, one [ascii] per character.  [is_space] is
    [c.isspace()] on these characters: the controls 9-13 and 28-31, the
    space, NEL (133) and the no-break space (160). *)
Definition is_space (c : ascii) : bool :=
  let n := nat_of_ascii c in
  (Nat.leb 9 n && Nat.leb n 13) || (Nat.leb 28 n && Nat.leb n 32)
  || Nat.eqb n 133 || Nat.eqb n 160.

(** [s.strip()]: the whitespace at both ends is removed. *)
Fixpoint lstrip (s : string) : string :=
  match s with
  | EmptyString => EmptyString
  | String c rest => if is_space c then lstrip rest else s
  end.

Fixpoint rstrip (s : string) : string :=
  match s with
  | EmptyString => EmptyString
  | String c rest =>
      match rstrip rest with
      | EmptyString => if is_space c then EmptyString else String c EmptyString
      | kept => String c kept
      end
  end.

Definition py_strip (s : string) : string := rstrip (lstrip s).

(** [s.replace(old, new)]: the occurrences of [old] are found from left
    to right without overlap; [skip] counts the characters of an
    occurrence that are still to be passed over.  With an empty [old],
    [new] is inserted before every character and at the end. *)
Fixpoint replace_from (skip : nat) (old new s : string) : string :=
  match s with
  | EmptyString => EmptyString
  | String c rest =>
      match skip with
      | S k => replace_from k old new rest
      | O =>
          if String.prefix old s
          then (new ++ replace_from (String.length old - 1) old new rest)%string
          else String c (replace_from 0 old new rest)
      end
  end.

Fixpoint insert_between (new s : string) : string :=
  match s with
  | EmptyString => new
  | String c rest => (new ++ String c (insert_between new rest))%string
  end.

Definition py_replace (old new s : string) : string :=
  match old with
  | EmptyString => insert_between new s
  | _ => replace_from 0 old new s
  end.

(** Line 43: the cleaning of the answer of the model. *)
Definition clean_response (text : string) : string :=
  py_replace "```" "" (py_replace "```json" "" (py_strip text)).

(** Lines 32-41: the prompt. *)
Definition nl : string := String (ascii_of_nat 10) EmptyString.
Definition dq : string := String (ascii_of_nat 34) EmptyString.
Definition indent : string := "        ".

Definition prompt (user_text : string) : string :=
  (nl
   ++ indent ++ "Analyze the provided text to create a psychological profile based on the Five-Factor Model." ++ nl
   ++ indent ++ "Your output must be a valid JSON object with no other text or markdown." ++ nl
   ++ indent ++ "The JSON object should have two keys: " ++ dq ++ "personality_vector" ++ dq
             ++ " and " ++ dq ++ "interests" ++ dq ++ "." ++ nl
   ++ nl
   ++ indent ++ "1.  " ++ dq ++ "personality_vector" ++ dq
             ++ ": A list of 5 floats [0.0 to 1.0] for [Openness, Conscientiousness, Extraversion, Agreeableness, Neuroticism]." ++ nl
   ++ indent ++ "2.  " ++ dq ++ "interests" ++ dq
             ++ ": A list of 5 strings for the user's hobbies." ++ nl
   ++ nl
   ++ indent ++ "User Text: " ++ dq ++ user_text ++ dq ++ nl
   ++ indent)%string.

Section Analysis.

(** The two collaborators of the analysis: the call to the generative
    model, from the prompt to the text of its answer, and [json.loads].
    Either may raise. *)
Variable generate_content : string -> result string.
Variable json_loads : string -> result pyval.

(** Lines 28-47: every exception is caught and turned into [None]. *)
Definition analyze_text_with_gemini (user_text : string) : pyval :=
  match (text <- generate_content (prompt user_text) ;;
         json_loads (clean_response text)) with
  | Ok parsed => parsed
  | Raise _ => PNone
  end.

(** [mero_ai(user_text)] with its analysis (lines 63-110). *)
Definition mero_ai_tool (user_text : string) (st : state)
  : result reply * state :=
  mero_ai (analyze_text_with_gemini user_text) st.

End Analysis.

(** ** Vocabulary of the further properties *)

(** [pat in s]. *)
Fixpoint occurs (pat s : string) : bool :=
  String.prefix pat s
  || match s with
     | EmptyString => false
     | String _ rest => occurs pat rest
     end.

Definition all_chars (p : ascii -> bool) (s : string) : bool :=
  forallb p (list_ascii_of_string s).

Definition is_backtick (c : ascii) : bool := Ascii.eqb c "`"%char.

(** An answer wrapped in a Markdown fence, with whitespace around it. *)
Definition fenced (before body after : string) : string :=
  (before ++ "```json" ++ body ++ "```" ++ after)%string.

(** The analyzer results that pass line 69, and those that are stored. *)
Definition accepted (analyses : list pyval) : list pyval :=
  filter (fun a => py_truthy a && is_dict a) analyses.

(** A finite float that is not negative. *)
Definition finite_nonneg (x : spec_float) : bool :=
  match x with
  | S754_zero _ | S754_finite false _ _ => true
  | _ => false
  end.

(** Not negative and not NaN: a zero, a positive number or +infinity. *)
Definition nonneg (x : spec_float) : bool :=
  match x with
  | S754_zero _ | S754_finite false _ _ | S754_infinity false => true
  | _ => false
  end.

(** The exceptions [mero_ai] can raise. *)
Definition tool_error (e : exn) : Prop :=
  e = TypeError \/ e = KeyError \/ e = OverflowError \/ e = MemoryError.

(** A reply that is a message, or the failure of [round]. *)
Definition replied (r : result reply) : Prop :=
  (exists interests_output connection,
      r = Ok (Sensing interests_output connection))
  \/ r = Ok Sorry \/ r = Raise OverflowError.

(** Case analysis on every comparison of integers in sight. *)
Ltac order_cases :=
  repeat match goal with
    | H : context [ (?a ?= ?b)%Z ] |- _ =>
        destruct (Z.compare_spec a b); cbn in H
    | |- context [ (?a ?= ?b)%Z ] =>
        destruct (Z.compare_spec a b); cbn
    | H : context [ (?a ?= ?b)%positive ] |- _ =>
        destruct (Pos.compare_spec a b); cbn in H
    | |- context [ (?a ?= ?b)%positive ] =>
        destruct (Pos.compare_spec a b); cbn
    end;
  try discriminate; try reflexivity; try lia.

(* ================================================================== *)
(** ** Facts about binary64 rounding *)
(* ================================================================== *)

Section B64Facts.
Import B64.

Lemma digits2_pos_size (m : positive) : digits2_pos m = Pos.size m.
Proof. induction m; simpl; congruence. Qed.

Lemma digits2_log2 (m : positive) :
  Zpos (digits2_pos m) = Z.log2 (Zpos m) + 1.
Proof. rewrite digits2_pos_size. destruct m; simpl; lia. Qed.

Lemma Zdigits2_log2 (n : Z) : 0 < n -> Zdigits2 n = Z.log2 n + 1.
Proof. destruct n; try lia. intros _. apply digits2_log2. Qed.

Lemma Zdigits2_mono (a b : Z) : 0 < a -> a <= b -> Zdigits2 a <= Zdigits2 b.
Proof.
  intros Ha Hab. rewrite !Zdigits2_log2 by lia.
  pose proof (Z.log2_le_mono a b Hab). lia.
Qed.

(** Dividing by 2^n removes at most n digits. *)
Lemma Zdigits2_div_pow2 (a n : Z) :
  0 < a -> 0 <= n -> n < Zdigits2 a ->
  0 < a / 2 ^ n /\ Zdigits2 a - n <= Zdigits2 (a / 2 ^ n).
Proof.
  intros Ha Hn Hlt. rewrite Zdigits2_log2 in Hlt by lia.
  assert (Hp : 2 ^ n <= a).
  { destruct (Z.log2_spec a Ha) as [Hlo _].
    apply Z.le_trans with (2 ^ Z.log2 a); [ | exact Hlo ].
    apply Z.pow_le_mono_r; lia. }
  assert (H2 : 0 < 2 ^ n) by (apply Z.pow_pos_nonneg; lia).
  assert (Hq : 0 < a / 2 ^ n) by (apply Z.div_str_pos; lia).
  split; [ exact Hq | ].
  rewrite !Zdigits2_log2 by lia.
  rewrite <- Z.shiftr_div_pow2 by lia.
  rewrite Z.log2_shiftr by lia. lia.
Qed.

Lemma shr_1_m (mrs : shr_record) :
  0 <= shr_m mrs -> shr_m (shr_1 mrs) = shr_m mrs / 2.
Proof.
  destruct mrs as [m r s]. simpl. intros Hm.
  rewrite <- Z.div2_div.
  destruct m as [ | [ p | p | ] | p ]; try reflexivity; lia.
Qed.

Lemma pow2_xI (p : positive) : 2 ^ Zpos p~1 = 2 * (2 ^ Zpos p * 2 ^ Zpos p).
Proof.
  replace (Zpos p~1) with (Zpos p + Zpos p + 1) by lia.
  rewrite !Z.pow_add_r by lia. ring.
Qed.

Lemma pow2_xO (p : positive) : 2 ^ Zpos p~0 = 2 ^ Zpos p * 2 ^ Zpos p.
Proof.
  replace (Zpos p~0) with (Zpos p + Zpos p) by lia.
  rewrite !Z.pow_add_r by lia. ring.
Qed.

Lemma iter_pos_shr_m (p : positive) : forall mrs,
  0 <= shr_m mrs ->
  shr_m (iter_pos shr_1 p mrs) = shr_m mrs / 2 ^ Zpos p.
Proof.
  assert (Hpow : forall q : positive, 0 < 2 ^ Zpos q)
    by (intros q; apply Z.pow_pos_nonneg; lia).
  induction p as [ p IH | p IH | ]; intros mrs Hm; cbn [iter_pos].
  - assert (H1 : 0 <= shr_m (shr_1 mrs))
      by (rewrite shr_1_m by lia; apply Z.div_pos; lia).
    assert (H2 : 0 <= shr_m (iter_pos shr_1 p (shr_1 mrs)))
      by (rewrite IH by lia; apply Z.div_pos; [ lia | apply Hpow ]).
    rewrite IH, IH, shr_1_m by lia.
    pose proof (Hpow p).
    rewrite !Z.div_div by lia.
    rewrite pow2_xI. f_equal; ring.
  - assert (H2 : 0 <= shr_m (iter_pos shr_1 p mrs))
      by (rewrite IH by lia; apply Z.div_pos; [ lia | apply Hpow ]).
    rewrite IH, IH by lia.
    pose proof (Hpow p).
    rewrite Z.div_div by lia. rewrite pow2_xO. reflexivity.
  - rewrite shr_1_m by lia. reflexivity.
Qed.

Lemma emin_eq : emin prec emax = -1074.
Proof. reflexivity. Qed.

Lemma fexp_eq (z : Z) : fexp prec emax z = Z.max (z - 53) (-1074).
Proof. reflexivity. Qed.

Lemma shr_record_of_loc_m (m : Z) (l : location) :
  shr_m (shr_record_of_loc m l) = m.
Proof. destruct l as [ | [ | | ] ]; reflexivity. Qed.

(** The first step of rounding: the exponent reaches the format's range,
    and a mantissa that is large enough is not shifted away. *)
Lemma shr_fexp_spec (m e : Z) (l : location) :
  let r := shr_fexp prec emax m e l in
  -1074 <= snd r /\
  (0 <= m -> 0 <= shr_m (fst r)) /\
  (0 < m -> -1074 < Zdigits2 m + e ->
   0 < shr_m (fst r) /\ Zdigits2 m + e <= Zdigits2 (shr_m (fst r)) + snd r).
Proof.
  unfold shr_fexp, shr. rewrite fexp_eq.
  destruct (Z.max (Zdigits2 m + e - 53) (-1074) - e) as [ | p | p ] eqn:Hn;
    cbn [fst snd]; rewrite ?shr_record_of_loc_m.
  - repeat split; lia.
  - assert (H2 : 0 < 2 ^ Zpos p) by (apply Z.pow_pos_nonneg; lia).
    repeat split.
    + lia.
    + intros Hm. rewrite iter_pos_shr_m by (rewrite shr_record_of_loc_m; lia).
      rewrite shr_record_of_loc_m. apply Z.div_pos; lia.
    + rewrite iter_pos_shr_m by (rewrite shr_record_of_loc_m; lia).
      rewrite shr_record_of_loc_m.
      apply (Zdigits2_div_pow2 m (Zpos p)); lia.
    + rewrite iter_pos_shr_m by (rewrite shr_record_of_loc_m; lia).
      rewrite shr_record_of_loc_m.
      pose proof (Zdigits2_div_pow2 m (Zpos p)). lia.
  - repeat split; lia.
Qed.

Lemma round_nearest_even_bounds (m : Z) (l : location) :
  m <= round_nearest_even m l <= m + 1.
Proof.
  destruct l as [ | [ | | ] ]; simpl; try lia.
  destruct (Z.even m); lia.
Qed.

(** Whatever is rounded, a finite result has the requested sign and an
    exponent in the format's range. *)
Lemma round_aux_sign_exp (s : bool) (M E : Z) (l : location) :
  match binary_round_aux prec emax s M E l with
  | S754_finite s' _ e' => s' = s /\ -1074 <= e'
  | S754_zero s' | S754_infinity s' => s' = s
  | S754_nan => True
  end.
Proof.
  unfold binary_round_aux.
  destruct (shr_fexp prec emax M E l) as [mrs1 e1].
  match goal with
  | |- context [shr_fexp prec emax ?m ?e ?l'] =>
      pose proof (shr_fexp_spec m e l') as H2;
      destruct (shr_fexp prec emax m e l') as [mrs2 e2]
  end.
  cbn [fst snd] in H2.
  destruct (shr_m mrs2); try exact I; try reflexivity.
  destruct (e2 <=? emax - prec); [ split; [ reflexivity | lia ] | reflexivity ].
Qed.

(** A mantissa that denotes at least the smallest subnormal number is
    never rounded to zero, and rounding does not lower the magnitude
    class [digits + exponent]. *)
Lemma round_aux_large (s : bool) (M E : Z) (l : location) :
  0 < M -> -1074 < Zdigits2 M + E ->
  match binary_round_aux prec emax s M E l with
  | S754_finite _ m' e' => Zdigits2 M + E <= Zpos (digits2_pos m') + e'
  | S754_infinity _ => True
  | _ => False
  end.
Proof.
  intros HM Hd. unfold binary_round_aux.
  pose proof (shr_fexp_spec M E l) as H1.
  destruct (shr_fexp prec emax M E l) as [mrs1 e1].
  cbn [fst snd] in H1. destruct H1 as (He1 & _ & H1).
  destruct (H1 HM Hd) as [Hpos1 Hdig1].
  pose proof (round_nearest_even_bounds (shr_m mrs1) (loc_of_shr_record mrs1)) as Hr.
  set (m1 := round_nearest_even (shr_m mrs1) (loc_of_shr_record mrs1)) in *.
  assert (Hm1 : Zdigits2 (shr_m mrs1) <= Zdigits2 m1)
    by (apply Zdigits2_mono; lia).
  pose proof (shr_fexp_spec m1 e1 loc_Exact) as H2.
  destruct (shr_fexp prec emax m1 e1 loc_Exact) as [mrs2 e2].
  cbn [fst snd] in H2. destruct H2 as (He2 & _ & H2).
  destruct H2 as [Hpos2 Hdig2]; [ lia | lia | ].
  destruct (shr_m mrs2) as [ | m2 | m2 ]; try lia.
  destruct (e2 <=? emax - prec); [ | exact I ].
  cbn [Zdigits2] in Hdig2. lia.
Qed.

Lemma round_aux_not_nan (s : bool) (M E : Z) (l : location) :
  0 <= M -> binary_round_aux prec emax s M E l <> S754_nan.
Proof.
  intros HM. unfold binary_round_aux.
  pose proof (shr_fexp_spec M E l) as H1.
  destruct (shr_fexp prec emax M E l) as [mrs1 e1].
  cbn [fst snd] in H1. destruct H1 as (_ & H1 & _).
  pose proof (round_nearest_even_bounds (shr_m mrs1) (loc_of_shr_record mrs1)) as Hr.
  set (m1 := round_nearest_even (shr_m mrs1) (loc_of_shr_record mrs1)) in *.
  pose proof (shr_fexp_spec m1 e1 loc_Exact) as H2.
  destruct (shr_fexp prec emax m1 e1 loc_Exact) as [mrs2 e2].
  cbn [fst snd] in H2. destruct H2 as (_ & H2 & _).
  specialize (H1 HM). assert (Hm1 : 0 <= m1) by lia. specialize (H2 Hm1).
  destruct (shr_m mrs2) as [ | m2 | m2 ]; try lia; try discriminate.
  destruct (e2 <=? emax - prec); discriminate.
Qed.

Lemma binary_round_sign_exp (s : bool) (m : positive) (e : Z) :
  match binary_round prec emax s m e with
  | S754_finite s' _ e' => s' = s /\ -1074 <= e'
  | S754_zero s' | S754_infinity s' => s' = s
  | S754_nan => True
  end.
Proof.
  unfold binary_round.
  destruct (shl_align m e (fexp prec emax (Zpos (digits2_pos m) + e))) as [mz ez].
  apply round_aux_sign_exp.
Qed.

(** *** Multiplication *)

Lemma mul_comm (x y : spec_float) : mul x y = mul y x.
Proof.
  destruct x as [ sx | sx | | sx mx ex ], y as [ sy | sy | | sy my ey ];
    unfold mul; cbn [SFmul]; rewrite ?(xorb_comm sx sy); try reflexivity.
  rewrite (Pos.mul_comm mx my), (Z.add_comm ex ey). reflexivity.
Qed.

Lemma mul_above_emin (x y : spec_float) : above_emin (mul x y).
Proof.
  destruct x as [ sx | sx | | sx mx ex ], y as [ sy | sy | | sy my ey ];
    unfold mul; cbn [SFmul]; try exact I.
  pose proof (round_aux_sign_exp (xorb sx sy) (Zpos (mx * my)) (ex + ey) loc_Exact) as H.
  destruct (binary_round_aux prec emax (xorb sx sy) (Zpos (mx * my)) (ex + ey) loc_Exact);
    cbn [above_emin]; try exact I.
  rewrite emin_eq. tauto.
Qed.

Lemma mul_self_sqrt_domain (x : spec_float) : sqrt_domain (mul x x) = true.
Proof.
  destruct x as [ sx | sx | | sx mx ex ]; unfold mul; cbn [SFmul];
    rewrite ?xorb_nilpotent; try reflexivity.
  pose proof (round_aux_sign_exp false (Zpos (mx * mx)) (ex + ex) loc_Exact) as H.
  destruct (binary_round_aux prec emax false (Zpos (mx * mx)) (ex + ex) loc_Exact);
    cbn [sqrt_domain]; try reflexivity.
  - subst. reflexivity.
  - destruct H as [-> _]. reflexivity.
Qed.

Lemma mul_finite_not_nan (x : spec_float) (s : bool) (m : positive) (e : Z) :
  x <> S754_nan -> mul x (S754_finite s m e) <> S754_nan.
Proof.
  destruct x as [ sx | sx | | sx mx ex ]; unfold mul; cbn [SFmul];
    intros Hx; try discriminate; try congruence.
  apply round_aux_not_nan. lia.
Qed.

(** *** Addition *)

Lemma binary_normalize_sign_exp (n e : Z) :
  match binary_normalize prec emax n e false with
  | S754_finite s' _ e' => s' = (n <? 0) /\ -1074 <= e'
  | S754_infinity s' => s' = (n <? 0)
  | _ => True
  end.
Proof.
  destruct n as [ | p | p ]; cbn [binary_normalize]; try exact I.
  - pose proof (binary_round_sign_exp false p e) as H.
    destruct (binary_round prec emax false p e); try exact I; exact H.
  - pose proof (binary_round_sign_exp true p e) as H.
    destruct (binary_round prec emax true p e); try exact I; exact H.
Qed.

Lemma add_above_emin (x y : spec_float) :
  above_emin x -> above_emin y -> above_emin (add x y).
Proof.
  destruct x as [ sx | sx | | sx mx ex ], y as [ sy | sy | | sy my ey ];
    unfold add; cbn [SFadd]; intros Hx Hy; try exact I; try assumption;
    try (destruct sx, sy; exact I).
  match goal with
  | |- above_emin (binary_normalize _ _ ?n ?e _) =>
      pose proof (binary_normalize_sign_exp n e) as H;
      destruct (binary_normalize prec emax n e false)
  end; cbn [above_emin]; try exact I.
  rewrite emin_eq. tauto.
Qed.

Lemma add_sqrt_domain (x y : spec_float) :
  sqrt_domain x = true -> sqrt_domain y = true -> sqrt_domain (add x y) = true.
Proof.
  destruct x as [ sx | sx | | sx mx ex ], y as [ sy | sy | | sy my ey ];
    unfold add; cbn [SFadd sqrt_domain]; intros Hx Hy;
    try reflexivity; try assumption;
    try (destruct sx, sy; first [ reflexivity | discriminate ]).
  destruct sx; [ discriminate | ]. destruct sy; [ discriminate | ].
  cbn [cond_Zopp].
  match goal with
  | |- sqrt_domain (binary_normalize _ _ ?n ?e _) = true =>
      pose proof (binary_normalize_sign_exp n e) as H;
      assert (Hn : (n <? 0) = false) by (apply Z.ltb_ge; lia);
      destruct (binary_normalize prec emax n e false)
  end; cbn [sqrt_domain]; try reflexivity.
  - rewrite H, Hn. reflexivity.
  - destruct H as [-> _]. rewrite Hn. reflexivity.
Qed.

(** *** Conversion of an int *)

Lemma of_Z_above_emin (n : Z) : above_emin (of_Z n).
Proof.
  unfold of_Z. pose proof (binary_normalize_sign_exp n 0) as H.
  destruct (binary_normalize prec emax n 0 false); cbn [above_emin]; try exact I.
  rewrite emin_eq. tauto.
Qed.

Lemma of_Z_sqrt_domain (n : Z) : 0 <= n -> sqrt_domain (of_Z n) = true.
Proof.
  intros Hn. unfold of_Z. pose proof (binary_normalize_sign_exp n 0) as H.
  assert (Hs : (n <? 0) = false) by (apply Z.ltb_ge; lia).
  destruct (binary_normalize prec emax n 0 false); cbn [sqrt_domain]; try reflexivity.
  - rewrite H, Hs. reflexivity.
  - destruct H as [-> _]. rewrite Hs. reflexivity.
Qed.

(** *** Square root *)

(** The integer square root keeps half of the binary digits. *)
Lemma log2_sqrt_lower (a : Z) : 0 < a -> Z.log2 a / 2 <= Z.log2 (Z.sqrt a).
Proof.
  intros Ha.
  assert (HL : 0 <= Z.log2 a) by apply Z.log2_nonneg.
  assert (Hk : 0 <= Z.log2 a / 2) by (apply Z.div_pos; lia).
  assert (H2k : 2 * (Z.log2 a / 2) <= Z.log2 a)
    by (apply Z.mul_div_le; lia).
  assert (Hsq : 2 ^ (Z.log2 a / 2) * 2 ^ (Z.log2 a / 2) <= a).
  { rewrite <- Z.pow_add_r by lia.
    apply Z.le_trans with (2 ^ Z.log2 a).
    - apply Z.pow_le_mono_r; lia.
    - apply Z.log2_spec; lia. }
  assert (Hp : 0 < 2 ^ (Z.log2 a / 2)) by (apply Z.pow_pos_nonneg; lia).
  apply Z.sqrt_le_square in Hsq; [ | lia | lia ].
  apply Z.log2_le_pow2; lia.
Qed.

Lemma sqrt_core_large (m : positive) (e : Z) :
  -1074 <= e ->
  let '(q, e', _) := SFsqrt_core_binary prec emax (Zpos m) e in
  0 < q /\ -536 <= Zdigits2 q + e'.
Proof.
  intros He. unfold SFsqrt_core_binary.
  set (d := Zdigits2 (Zpos m)).
  set (e' := Z.min (fexp prec emax (Z.div2 (d + e + 1))) (Z.div2 e)).
  assert (Hd : d = Z.log2 (Zpos m) + 1) by (apply Zdigits2_log2; lia).
  assert (HL : 0 <= Z.log2 (Zpos m)) by apply Z.log2_nonneg.
  assert (He' : 2 * e' <= e).
  { unfold e'. rewrite Z.div2_div.
    pose proof (Z.mul_div_le e 2). lia. }
  set (s := e - 2 * e').
  set (m' := match s with Zpos _ => Z.shiftl (Zpos m) s | 0 => Zpos m | Zneg _ => 0 end).
  assert (Hm' : m' = Zpos m * 2 ^ s).
  { unfold m'. destruct s as [ | p | p ] eqn:Hs.
    - rewrite Z.pow_0_r. lia.
    - apply Z.shiftl_mul_pow2. lia.
    - unfold s in Hs. lia. }
  assert (Hs0 : 0 <= s) by (unfold s; lia).
  assert (H2s : 0 < 2 ^ s) by (apply Z.pow_pos_nonneg; lia).
  assert (Hm'pos : 0 < m') by (rewrite Hm'; lia).
  assert (Hlog : Z.log2 m' = s + Z.log2 (Zpos m))
    by (rewrite Hm'; apply Z.log2_mul_pow2; lia).
  pose proof (Z.sqrtrem_sqrt m') as Hq.
  destruct (Z.sqrtrem m') as [q r]. cbn [fst] in Hq. subst q.
  pose proof (log2_sqrt_lower m' Hm'pos) as Hlow.
  assert (Hsqrt : 0 < Z.sqrt m') by (apply Z.sqrt_pos; lia).
  split; [ exact Hsqrt | ].
  rewrite (Zdigits2_log2 (Z.sqrt m')) by lia.
  rewrite Hlog in Hlow.
  assert (Hdiv : (s + Z.log2 (Zpos m)) / 2 = (e + Z.log2 (Zpos m)) / 2 - e').
  { unfold s. replace (e - 2 * e' + Z.log2 (Zpos m))
      with (e + Z.log2 (Zpos m) + (- e') * 2) by ring.
    rewrite Z.div_add by lia. ring. }
  rewrite Hdiv in Hlow.
  assert (Hfloor : -537 <= (e + Z.log2 (Zpos m)) / 2)
    by (apply Z.div_le_lower_bound; lia).
  lia.
Qed.

(** The square root of a binary64 number is a zero, or it is no smaller
    than 2^-537. *)
Lemma sqrt_large (x : spec_float) :
  above_emin x -> is_zero (sqrt x) = true \/ large (sqrt x).
Proof.
  destruct x as [ sx | sx | | sx mx ex ]; unfold sqrt; cbn [SFsqrt above_emin].
  - intros _. left. reflexivity.
  - intros _. right. destruct sx; exact I.
  - intros _. right. exact I.
  - rewrite emin_eq. intros He. right.
    destruct sx; [ exact I | ].
    pose proof (sqrt_core_large mx ex He) as H.
    destruct (SFsqrt_core_binary prec emax (Zpos mx) ex) as [[q e'] l].
    destruct H as [Hq Hd].
    pose proof (round_aux_large false q e' l Hq) as H.
    destruct (binary_round_aux prec emax false q e' l); cbn [large];
      try exact I; try (apply H; lia).
    assert (Hle : Zdigits2 q + e' <= Zpos (digits2_pos m) + e) by (apply H; lia).
    lia.
Qed.

(** The product of two such numbers does not underflow to zero. *)
Lemma mul_large (x y : spec_float) :
  large x -> large y -> is_zero (mul x y) = false.
Proof.
  destruct x as [ sx | sx | | sx mx ex ], y as [ sy | sy | | sy my ey ];
    unfold mul; cbn [SFmul large is_zero]; intros Hx Hy;
    try reflexivity; try contradiction.
  assert (Hdig : Zpos (digits2_pos mx) + Zpos (digits2_pos my) - 1
                 <= Zdigits2 (Zpos (mx * my))).
  { cbn [Zdigits2]. rewrite !digits2_log2, Pos2Z.inj_mul.
    pose proof (Z.log2_mul_below (Zpos mx) (Zpos my)). lia. }
  pose proof (round_aux_large (xorb sx sy) (Zpos (mx * my)) (ex + ey) loc_Exact) as H.
  destruct (binary_round_aux prec emax (xorb sx sy) (Zpos (mx * my)) (ex + ey) loc_Exact);
    try reflexivity; exfalso; apply H; lia.
Qed.

(** *** Comparison *)

Lemma ltb_leb_trans (a b c : spec_float) :
  ltb a b = true -> leb b c = true -> ltb a c = true.
Proof.
  unfold ltb, leb, SFltb, SFleb.
  destruct a as [ sa | sa | | sa ma ea ], b as [ sb | sb | | sb mb eb ],
           c as [ sc | sc | | sc mc ec ];
    cbn [SFcompare]; try discriminate;
    try (destruct sa; try discriminate); try (destruct sb; try discriminate);
    try (destruct sc; try discriminate); try reflexivity;
    intros H1 H2; change (Pos.compare_cont Eq) with Pos.compare in *; order_cases.
Qed.

(** [x == x] holds of every float but NaN. *)
Lemma eqb_refl (x : spec_float) : x <> S754_nan -> eqb x x = true.
Proof.
  unfold eqb, SFeqb.
  destruct x as [ s | s | | s m e ]; cbn [SFcompare]; intros Hx;
    try reflexivity; try congruence.
  - destruct s; reflexivity.
  - change (Pos.compare_cont Eq) with Pos.compare.
    destruct s; rewrite Z.compare_refl, Pos.compare_refl; reflexivity.
Qed.

Lemma ltb_leb (a b : spec_float) : ltb a b = true -> leb a b = true.
Proof.
  unfold ltb, leb, SFltb, SFleb.
  destruct (SFcompare a b) as [ [ | | ] | ]; intros H; try discriminate; reflexivity.
Qed.

Lemma ltb_trans (a b c : spec_float) :
  ltb a b = true -> ltb b c = true -> ltb a c = true.
Proof. intros H1 H2. apply (ltb_leb_trans a b c H1), ltb_leb, H2. Qed.

End B64Facts.

(* ================================================================== *)
(** ** [custom_cosine_similarity] on vectors of floats *)
(* ================================================================== *)


Lemma to_float_0 : to_float 0 = Ok B64.zero.
Proof. reflexivity. Qed.

Lemma py_add_floats (x y : spec_float) :
  py_add (PFloat x) (PFloat y) = Ok (PFloat (B64.add x y)).
Proof. reflexivity. Qed.

Lemma py_mul_floats (x y : spec_float) :
  py_mul (PFloat x) (PFloat y) = Ok (PFloat (B64.mul x y)).
Proof. reflexivity. Qed.

Lemma sum_from_map {A B} (f : B -> result pyval) (h : A -> B) (xs : list A) :
  forall acc, sum_from f (map h xs) acc = sum_from (fun x => f (h x)) xs acc.
Proof.
  induction xs as [ | x xs IH ]; intros acc; cbn [map sum_from]; [ reflexivity | ].
  destruct (f (h x)) as [ t | e ]; cbn [bind]; [ | reflexivity ].
  destruct (py_add acc t) as [ acc' | e ]; cbn [bind]; [ apply IH | reflexivity ].
Qed.

Lemma sum_from_floats {A} (f : A -> result pyval) (g : A -> spec_float) :
  (forall x, f x = Ok (PFloat (g x))) ->
  forall xs acc,
    sum_from f xs (PFloat acc) = Ok (PFloat (fold_left B64.add (map g xs) acc)).
Proof.
  intros Hf xs. induction xs as [ | x xs IH ]; intros acc; cbn [map sum_from fold_left].
  - reflexivity.
  - rewrite Hf. cbn [bind]. rewrite py_add_floats. cbn [bind]. apply IH.
Qed.

(** A sum of floats is the int [0] when there is no term and the float
    sum otherwise. *)
Lemma py_sum_floats {A} (f : A -> result pyval) (g : A -> spec_float) :
  (forall x, f x = Ok (PFloat (g x))) ->
  forall xs,
    py_sum f xs = Ok (match xs with
                      | [] => PInt 0
                      | _ :: _ => PFloat (fsum (map g xs))
                      end).
Proof.
  intros Hf [ | x xs ]; unfold py_sum; cbn [sum_from]; [ reflexivity | ].
  rewrite Hf. cbn [bind].
  change (py_add (PInt 0) (PFloat (g x))) with (Ok (PFloat (B64.add B64.zero (g x)))).
  cbn [bind]. rewrite (sum_from_floats f g Hf). reflexivity.
Qed.

Lemma combine_map_floats (a b : list spec_float) :
  combine (map PFloat a) (map PFloat b)
  = map (fun pq => (PFloat (fst pq), PFloat (snd pq))) (combine a b).
Proof.
  revert b. induction a as [ | x a IH ]; intros [ | y b ]; cbn [map combine];
    try reflexivity.
  rewrite IH. reflexivity.
Qed.

Lemma fold_add_sqrt_domain (ts : list spec_float) :
  Forall (fun t => B64.sqrt_domain t = true) ts ->
  forall acc, B64.sqrt_domain acc = true ->
              B64.sqrt_domain (fold_left B64.add ts acc) = true.
Proof.
  induction 1 as [ | t ts Ht _ IH ]; intros acc Hacc; cbn [fold_left]; [ exact Hacc | ].
  apply IH, add_sqrt_domain; assumption.
Qed.

Lemma fold_add_above_emin (ts : list spec_float) :
  Forall B64.above_emin ts ->
  forall acc, B64.above_emin acc -> B64.above_emin (fold_left B64.add ts acc).
Proof.
  induction 1 as [ | t ts Ht _ IH ]; intros acc Hacc; cbn [fold_left]; [ exact Hacc | ].
  apply IH, add_above_emin; assumption.
Qed.

Lemma squares_sqrt_domain (a : list spec_float) :
  B64.sqrt_domain (fsum (squares a)) = true.
Proof.
  apply fold_add_sqrt_domain; [ | reflexivity ].
  apply Forall_forall. intros t Ht. apply in_map_iff in Ht.
  destruct Ht as (p & <- & _). apply mul_self_sqrt_domain.
Qed.

Lemma squares_above_emin (a : list spec_float) :
  B64.above_emin (fsum (squares a)).
Proof.
  apply fold_add_above_emin; [ | exact I ].
  apply Forall_forall. intros t Ht. apply in_map_iff in Ht.
  destruct Ht as (p & <- & _). apply mul_above_emin.
Qed.

(** The norm of a vector is a zero or at least 2^-537. *)
Lemma norm_large (a : list spec_float) :
  B64.is_zero (norm a) = true \/ B64.large (norm a).
Proof. apply sqrt_large, squares_above_emin. Qed.

Lemma magnitude_floats (a : list spec_float) :
  (sq <- py_sum (fun p => py_mul p p) (map PFloat a) ;; math_sqrt sq)
  = Ok (norm a).
Proof.
  unfold py_sum. rewrite sum_from_map. fold (py_sum (fun x => py_mul (PFloat x) (PFloat x)) a).
  rewrite (py_sum_floats _ (fun p => B64.mul p p)) by (intros x; apply py_mul_floats).
  cbn [bind]. destruct a as [ | x a ]; [ reflexivity | ].
  unfold math_sqrt. cbn [as_num num_to_float bind].
  change (map (fun p => B64.mul p p) (x :: a)) with (squares (x :: a)).
  rewrite squares_sqrt_domain. reflexivity.
Qed.

Lemma dot_floats (a b : list spec_float) :
  py_sum (fun pq => py_mul (fst pq) (snd pq)) (combine (map PFloat a) (map PFloat b))
  = Ok (match combine a b with
        | [] => PInt 0
        | _ :: _ => PFloat (dot a b)
        end).
Proof.
  rewrite combine_map_floats. unfold py_sum. rewrite sum_from_map.
  fold (py_sum (fun pq : spec_float * spec_float =>
                  py_mul (fst (PFloat (fst pq), PFloat (snd pq)))
                         (snd (PFloat (fst pq), PFloat (snd pq)))) (combine a b)).
  rewrite (py_sum_floats _ (fun pq => B64.mul (fst pq) (snd pq)))
    by (intros x; apply py_mul_floats).
  reflexivity.
Qed.

(** On vectors of floats the source computes the similarity of the
    specification, whatever the two lengths are. *)
Lemma similarity_floats (a b : list spec_float) :
  custom_cosine_similarity (floats a) (floats b) = Ok (spec_similarity a b).
Proof.
  unfold custom_cosine_similarity, floats. cbn [py_iter bind].
  rewrite dot_floats. cbn [bind].
  pose proof (magnitude_floats a) as Ha. pose proof (magnitude_floats b) as Hb.
  destruct (py_sum (fun p => py_mul p p) (map PFloat a)) as [ sq1 | e ];
    cbn [bind] in Ha |- *; [ | discriminate ].
  rewrite Ha. cbn [bind].
  destruct (py_sum (fun q => py_mul q q) (map PFloat b)) as [ sq2 | e ];
    cbn [bind] in Hb |- *; [ | discriminate ].
  rewrite Hb. cbn [bind].
  unfold spec_similarity, float_truthy. rewrite !negb_involutive.
  destruct (B64.is_zero (norm a)) eqn:Hza; [ reflexivity | ].
  destruct (B64.is_zero (norm b)) eqn:Hzb; [ reflexivity | ].
  cbn [orb].
  assert (Hnz : B64.is_zero (B64.mul (norm a) (norm b)) = false).
  { apply mul_large.
    - destruct (norm_large a); [ congruence | assumption ].
    - destruct (norm_large b); [ congruence | assumption ]. }
  unfold py_truediv.
  destruct (combine a b) as [ | pq rest ] eqn:Hc.
  - cbn [as_num num_to_float]. rewrite to_float_0. cbn [bind]. rewrite Hnz.
    unfold dot. rewrite Hc. reflexivity.
  - cbn [as_num num_to_float bind]. rewrite Hnz. reflexivity.
Qed.

(* ================================================================== *)
(** ** [custom_cosine_similarity] on arbitrary JSON values *)
(* ================================================================== *)

Lemma to_float_ready (n : Z) (f : spec_float) :
  0 <= n -> to_float n = Ok f ->
  B64.sqrt_domain f = true /\ B64.above_emin f.
Proof.
  unfold to_float. intros Hn.
  destruct (B64.is_infinity (B64.of_Z n)); [ discriminate | ].
  intros [= <-]. split.
  - apply of_Z_sqrt_domain, Hn.
  - apply of_Z_above_emin.
Qed.

Lemma to_float_raises (n : Z) (e : exn) : to_float n = Raise e -> e = OverflowError.
Proof.
  unfold to_float. destruct (B64.is_infinity (B64.of_Z n)); congruence.
Qed.

Lemma num_to_float_raises (x : pynum) (e : exn) :
  num_to_float x = Raise e -> e = OverflowError.
Proof. destruct x; cbn; [ apply to_float_raises | discriminate ]. Qed.

Lemma arith_raises fz ff (x y : pynum) (e : exn) :
  arith fz ff x y = Raise e -> e = OverflowError.
Proof.
  unfold arith. destruct x as [ a | a ], y as [ b | b ]; cbn [num_to_float bind];
    try discriminate.
  - destruct (to_float a) eqn:Ha; cbn [bind]; [ discriminate | ].
    intros [= <-]. eapply to_float_raises, Ha.
  - destruct (to_float b) eqn:Hb; cbn [bind]; [ discriminate | ].
    intros [= <-]. eapply to_float_raises, Hb.
Qed.

Lemma py_repeat_raises (seq : pyval) (count : Z) (e : exn) :
  py_repeat can_allocate seq count = Raise e -> arithmetic_error e.
Proof.
  unfold py_repeat, arithmetic_error.
  destruct seq; try (intros [= <-]; tauto);
    repeat match goal with
           | |- context [ if ?c then _ else _ ] => destruct c
           end;
    intros [= <-]; tauto.
Qed.

Lemma py_mul_raises (v w : pyval) (e : exn) :
  py_mul v w = Raise e -> arithmetic_error e.
Proof.
  unfold py_mul.
  destruct (as_num v) as [ x | ], (as_num w) as [ y | ].
  - destruct (arith Z.mul B64.mul x y) eqn:H; cbn [bind]; [ discriminate | ].
    intros [= <-]. right. left. eapply arith_raises, H.
  - destruct x; [ apply py_repeat_raises | intros [= <-]; left; reflexivity ].
  - destruct y; [ apply py_repeat_raises | intros [= <-]; left; reflexivity ].
  - intros [= <-]. left. reflexivity.
Qed.

Lemma py_add_raises (v w : pyval) (e : exn) :
  py_add v w = Raise e -> arithmetic_error e.
Proof.
  unfold py_add.
  destruct (as_num v) as [ x | ], (as_num w) as [ y | ];
    [ | destruct v, w;
        first [ discriminate | intros [= <-]; left; reflexivity ] .. ].
  destruct (arith Z.add B64.add x y) eqn:H; cbn [bind]; [ discriminate | ].
  intros [= <-]. right. left. eapply arith_raises, H.
Qed.

Lemma sum_from_raises {A} (f : A -> result pyval) (xs : list A) :
  (forall x e, f x = Raise e -> arithmetic_error e) ->
  forall acc e, sum_from f xs acc = Raise e -> arithmetic_error e.
Proof.
  intros Hf. induction xs as [ | x xs IH ]; intros acc e; cbn [sum_from].
  - discriminate.
  - destruct (f x) as [ t | e' ] eqn:Hx; cbn [bind].
    + destruct (py_add acc t) as [ acc' | e' ] eqn:Hadd; cbn [bind].
      * apply IH.
      * intros [= <-]. eapply py_add_raises, Hadd.
    + intros [= <-]. eapply Hf, Hx.
Qed.

Lemma py_mul_self_ready (p r : pyval) : py_mul p p = Ok r -> sqrt_ready r.
Proof.
  unfold py_mul. destruct (as_num p) as [ [ n | f ] | ]; cbn; try discriminate.
  - intros [= <-]. cbn. nia.
  - intros [= <-]. cbn. split.
    + apply mul_self_sqrt_domain.
    + apply mul_above_emin.
Qed.

Lemma py_add_ready (acc t r : pyval) :
  sqrt_ready acc -> sqrt_ready t -> py_add acc t = Ok r -> sqrt_ready r.
Proof.
  destruct acc as [ | | a | a | | | ]; try contradiction;
    destruct t as [ | | b | b | | | ]; try contradiction;
    unfold py_add; cbn [as_num arith num_to_float bind of_num sqrt_ready].
  - intros Ha Hb [= <-]. cbn. lia.
  - intros Ha [Hb1 Hb2].
    destruct (to_float a) as [ fa | ] eqn:Hfa; cbn [bind]; [ | discriminate ].
    intros [= <-]. destruct (to_float_ready a fa Ha Hfa). cbn. split.
    + apply add_sqrt_domain; assumption.
    + apply add_above_emin; assumption.
  - intros [Ha1 Ha2] Hb.
    destruct (to_float b) as [ fb | ] eqn:Hfb; cbn [bind]; [ | discriminate ].
    intros [= <-]. destruct (to_float_ready b fb Hb Hfb). cbn. split.
    + apply add_sqrt_domain; assumption.
    + apply add_above_emin; assumption.
  - intros [Ha1 Ha2] [Hb1 Hb2] [= <-]. cbn. split.
    + apply add_sqrt_domain; assumption.
    + apply add_above_emin; assumption.
Qed.

Lemma sum_from_ready {A} (f : A -> result pyval) (xs : list A) :
  (forall x t, f x = Ok t -> sqrt_ready t) ->
  forall acc r, sqrt_ready acc -> sum_from f xs acc = Ok r -> sqrt_ready r.
Proof.
  intros Hf. induction xs as [ | x xs IH ]; intros acc r Hacc; cbn [sum_from].
  - intros [= <-]. exact Hacc.
  - destruct (f x) as [ t | ] eqn:Hx; cbn [bind]; [ | discriminate ].
    destruct (py_add acc t) as [ acc' | ] eqn:Hadd; cbn [bind]; [ | discriminate ].
    apply IH. eapply py_add_ready; [ exact Hacc | eapply Hf, Hx | exact Hadd ].
Qed.

(** [math.sqrt] of a sum of squares never meets a negative argument, and
    its value is a zero or at least 2^-537. *)
Lemma math_sqrt_ready (v : pyval) :
  sqrt_ready v ->
  match math_sqrt v with
  | Ok m => magnitude_like m
  | Raise e => e = OverflowError
  end.
Proof.
  destruct v as [ | | n | f | | | ]; try contradiction;
    unfold math_sqrt; cbn [as_num num_to_float bind sqrt_ready].
  - intros Hn. destruct (to_float n) as [ f | e ] eqn:Hf; cbn [bind].
    + destruct (to_float_ready n f Hn Hf) as [Hd He]. rewrite Hd.
      apply sqrt_large, He.
    + eapply to_float_raises, Hf.
  - intros [Hd He]. rewrite Hd. apply sqrt_large, He.
Qed.

Lemma magnitude_safe (xs : list pyval) :
  match (sq <- py_sum (fun p => py_mul p p) xs ;; math_sqrt sq) with
  | Ok m => magnitude_like m
  | Raise e => arithmetic_error e
  end.
Proof.
  destruct (py_sum (fun p => py_mul p p) xs) as [ sq | e ] eqn:Hs; cbn [bind].
  - assert (Hr : sqrt_ready sq).
    { apply (sum_from_ready (fun p => py_mul p p) xs
               (fun x t => py_mul_self_ready x t) (PInt 0) sq);
        [ cbn; lia | exact Hs ]. }
    pose proof (math_sqrt_ready sq Hr) as H.
    destruct (math_sqrt sq); [ exact H | right; left; exact H ].
  - eapply (sum_from_raises (fun p => py_mul p p) xs); [ | exact Hs ].
    intros x e'. apply py_mul_raises.
Qed.

Lemma py_truediv_raises (v : pyval) (f : spec_float) (e : exn) :
  B64.is_zero f = false -> py_truediv v f = Raise e -> arithmetic_error e.
Proof.
  intros Hf. unfold py_truediv.
  destruct (as_num v) as [ x | ]; [ | intros [= <-]; left; reflexivity ].
  destruct (num_to_float x) as [ a | e' ] eqn:Hx; cbn [bind].
  - rewrite Hf. discriminate.
  - intros [= <-]. right. left. eapply num_to_float_raises, Hx.
Qed.

Lemma py_iter_raises (v : pyval) (e : exn) : py_iter v = Raise e -> e = TypeError.
Proof. destruct v; cbn; congruence. Qed.

(** Whatever the arguments are, the division is reached with a non-zero
    divisor and [math.sqrt] with a non-negative argument: the only
    exceptions are TypeError, OverflowError and the MemoryError of a
    repetition. *)
Lemma similarity_raises (vec1 vec2 : pyval) (e : exn) :
  custom_cosine_similarity vec1 vec2 = Raise e -> arithmetic_error e.
Proof.
  unfold custom_cosine_similarity.
  destruct (py_iter vec1) as [ xs1 | e1 ] eqn:H1; cbn [bind];
    [ | intros [= <-]; left; eapply py_iter_raises, H1 ].
  destruct (py_iter vec2) as [ xs2 | e2 ] eqn:H2; cbn [bind];
    [ | intros [= <-]; left; eapply py_iter_raises, H2 ].
  destruct (py_sum (fun pq => py_mul (fst pq) (snd pq)) (combine xs1 xs2))
    as [ dot_product | e3 ] eqn:H3; cbn [bind].
  2:{ intros [= <-]. eapply (sum_from_raises _ _ ) ; [ | exact H3 ].
      intros x e'. apply py_mul_raises. }
  pose proof (magnitude_safe xs1) as M1.
  destruct (py_sum (fun p => py_mul p p) xs1) as [ sq1 | e4 ]; cbn [bind] in M1 |- *;
    [ | intros [= <-]; exact M1 ].
  destruct (math_sqrt sq1) as [ magnitude1 | e5 ]; cbn [bind];
    [ | intros [= <-]; exact M1 ].
  pose proof (magnitude_safe xs2) as M2.
  destruct (py_sum (fun q => py_mul q q) xs2) as [ sq2 | e6 ]; cbn [bind] in M2 |- *;
    [ | intros [= <-]; exact M2 ].
  destruct (math_sqrt sq2) as [ magnitude2 | e7 ]; cbn [bind];
    [ | intros [= <-]; exact M2 ].
  unfold float_truthy. rewrite !negb_involutive.
  destruct (B64.is_zero magnitude1) eqn:Hz1; [ discriminate | ].
  destruct (B64.is_zero magnitude2) eqn:Hz2; [ discriminate | ].
  cbn [orb]. apply py_truediv_raises.
  apply mul_large.
  - destruct M1; [ congruence | assumption ].
  - destruct M2; [ congruence | assumption ].
Qed.

(* ================================================================== *)
(** ** Symmetry *)
(* ================================================================== *)

Lemma similarity_unfold (vec1 vec2 : pyval) :
  custom_cosine_similarity vec1 vec2 =
  (xs1 <- py_iter vec1 ;;
   xs2 <- py_iter vec2 ;;
   dot_product <- dot_product_of xs1 xs2 ;;
   magnitude1 <- magnitude xs1 ;;
   magnitude2 <- magnitude xs2 ;;
   if negb (float_truthy magnitude1) || negb (float_truthy magnitude2)
   then Ok B64.zero
   else py_truediv dot_product (B64.mul magnitude1 magnitude2)).
Proof.
  unfold custom_cosine_similarity, magnitude, dot_product_of.
  destruct (py_iter vec1) as [ xs1 | ]; cbn [bind]; [ | reflexivity ].
  destruct (py_iter vec2) as [ xs2 | ]; cbn [bind]; [ | reflexivity ].
  destruct (py_sum _ (combine xs1 xs2)); cbn [bind]; [ | reflexivity ].
  destruct (py_sum _ xs1); cbn [bind]; [ | reflexivity ].
  destruct (math_sqrt _); cbn [bind]; [ | reflexivity ].
  destruct (py_sum _ xs2); cbn [bind]; reflexivity.
Qed.

Lemma arith_mul_comm (x y : pynum) :
  arith Z.mul B64.mul x y = arith Z.mul B64.mul y x.
Proof.
  destruct x as [ a | a ], y as [ b | b ]; unfold arith; cbn [num_to_float bind].
  - rewrite Z.mul_comm. reflexivity.
  - destruct (to_float a); cbn [bind]; [ rewrite mul_comm | ]; reflexivity.
  - destruct (to_float b); cbn [bind]; [ rewrite mul_comm | ]; reflexivity.
  - rewrite mul_comm. reflexivity.
Qed.

Lemma py_mul_comm (v w : pyval) : py_mul v w = py_mul w v.
Proof.
  unfold py_mul. destruct (as_num v) as [ x | ], (as_num w) as [ y | ];
    try reflexivity.
  rewrite arith_mul_comm. reflexivity.
Qed.

Lemma sum_products_comm (xs ys : list pyval) :
  forall acc,
    sum_from (fun pq => py_mul (fst pq) (snd pq)) (combine xs ys) acc
    = sum_from (fun pq => py_mul (fst pq) (snd pq)) (combine ys xs) acc.
Proof.
  revert ys. induction xs as [ | x xs IH ]; intros [ | y ys ] acc;
    cbn [combine sum_from fst snd]; try reflexivity.
  rewrite (py_mul_comm x y).
  destruct (py_mul y x) as [ t | ]; cbn [bind]; [ | reflexivity ].
  destruct (py_add acc t) as [ acc' | ]; cbn [bind]; [ apply IH | reflexivity ].
Qed.

Lemma dot_product_comm (xs ys : list pyval) :
  dot_product_of xs ys = dot_product_of ys xs.
Proof. apply sum_products_comm. Qed.

(** On numbers arithmetic can only fail by overflow. *)
Lemma as_num_number (v : pyval) :
  is_number v = true -> exists x, as_num v = Some x.
Proof.
  unfold is_number. destruct (as_num v) as [ x | ]; [ eauto | discriminate ].
Qed.

Lemma of_num_number (x : pynum) : is_number (of_num x) = true.
Proof. destruct x; reflexivity. Qed.

Lemma py_mul_numbers (p q : pyval) :
  is_number p = true -> is_number q = true ->
  match py_mul p q with
  | Ok r => is_number r = true
  | Raise e => e = OverflowError
  end.
Proof.
  intros Hp Hq. destruct (as_num_number p Hp) as [x Hx].
  destruct (as_num_number q Hq) as [y Hy].
  unfold py_mul. rewrite Hx, Hy.
  destruct (arith Z.mul B64.mul x y) as [ r | e ] eqn:H; cbn [bind].
  - apply of_num_number.
  - eapply arith_raises, H.
Qed.

Lemma py_add_numbers (p q : pyval) :
  is_number p = true -> is_number q = true ->
  match py_add p q with
  | Ok r => is_number r = true
  | Raise e => e = OverflowError
  end.
Proof.
  intros Hp Hq. destruct (as_num_number p Hp) as [x Hx].
  destruct (as_num_number q Hq) as [y Hy].
  unfold py_add. rewrite Hx, Hy.
  destruct (arith Z.add B64.add x y) as [ r | e ] eqn:H; cbn [bind].
  - apply of_num_number.
  - eapply arith_raises, H.
Qed.

Lemma sum_squares_numbers (xs : list pyval) :
  forallb is_number xs = true ->
  forall acc e,
    is_number acc = true ->
    sum_from (fun p => py_mul p p) xs acc = Raise e -> e = OverflowError.
Proof.
  induction xs as [ | x xs IH ]; cbn [forallb sum_from]; intros Hxs acc e Hacc.
  - discriminate.
  - apply andb_prop in Hxs. destruct Hxs as [Hx Hxs].
    pose proof (py_mul_numbers x x Hx Hx) as Hm.
    destruct (py_mul x x) as [ t | e' ]; cbn [bind]; [ | congruence ].
    pose proof (py_add_numbers acc t Hacc Hm) as Ha.
    destruct (py_add acc t) as [ acc' | e' ]; cbn [bind]; [ | congruence ].
    apply IH; assumption.
Qed.

Lemma magnitude_numbers (xs : list pyval) (e : exn) :
  forallb is_number xs = true -> magnitude xs = Raise e -> e = OverflowError.
Proof.
  intros Hxs. unfold magnitude.
  destruct (py_sum (fun p => py_mul p p) xs) as [ sq | e' ] eqn:Hs; cbn [bind].
  - assert (Hr : sqrt_ready sq).
    { apply (sum_from_ready (fun p => py_mul p p) xs
               (fun x t => py_mul_self_ready x t) (PInt 0) sq);
        [ cbn; lia | exact Hs ]. }
    pose proof (math_sqrt_ready sq Hr) as H.
    destruct (math_sqrt sq); [ discriminate | congruence ].
  - intros [= <-].
    apply (sum_squares_numbers xs Hxs (PInt 0) e'); [ reflexivity | exact Hs ].
Qed.

Lemma similarity_numbers_symmetric (xs ys : list pyval) :
  forallb is_number xs = true -> forallb is_number ys = true ->
  custom_cosine_similarity (PList xs) (PList ys)
  = custom_cosine_similarity (PList ys) (PList xs).
Proof.
  intros Hxs Hys. rewrite !similarity_unfold. cbn [py_iter bind].
  rewrite (dot_product_comm ys xs).
  destruct (dot_product_of xs ys) as [ d | ]; cbn [bind]; [ | reflexivity ].
  destruct (magnitude xs) as [ m1 | e1 ] eqn:H1,
           (magnitude ys) as [ m2 | e2 ] eqn:H2; cbn [bind]; try reflexivity.
  - rewrite (orb_comm (negb (float_truthy m2))), (mul_comm m2 m1).
    reflexivity.
  - rewrite (magnitude_numbers xs e1 Hxs H1), (magnitude_numbers ys e2 Hys H2).
    reflexivity.
Qed.

(* ================================================================== *)
(** ** The match scan *)
(* ================================================================== *)

Lemma ltb_irrefl (x : spec_float) : B64.ltb x x = false.
Proof.
  unfold B64.ltb, SFltb.
  destruct x as [ s | s | | s m e ]; cbn [SFcompare]; try reflexivity.
  - destruct s; reflexivity.
  - change (Pos.compare_cont Eq) with Pos.compare.
    destruct s; rewrite Z.compare_refl, Pos.compare_refl; reflexivity.
Qed.

Lemma float_gt_initial (s : spec_float) :
  float_gt s (NInt (-1)) = B64.ltb minus_one s.
Proof. reflexivity. Qed.

(** One iteration either skips a profile that is not a candidate, or
    compares the score of the candidate with the highest so far. *)
Lemma scan_step_spec (profile : pyval) (new_user_id : Z)
      (acc acc' : pyval * pynum) (other_profile : pyval) :
  scan_step profile new_user_id acc other_profile = Ok acc' ->
  (candidate new_user_id other_profile = false /\ acc' = acc)
  \/ (candidate new_user_id other_profile = true /\
      exists similarity,
        score profile other_profile = Ok similarity /\
        acc' = if float_gt similarity (snd acc)
               then (other_profile, NFloat similarity) else acc).
Proof.
  unfold scan_step, candidate, score.
  destruct (py_getitem other_profile "id") as [ other_id | ]; cbn [bind];
    [ | discriminate ].
  destruct (py_ne_int other_id new_user_id).
  - destruct (py_getitem profile "personality_vector") as [ vec1 | ]; cbn [bind];
      [ | discriminate ].
    destruct (py_getitem other_profile "personality_vector") as [ vec2 | ];
      cbn [bind]; [ | discriminate ].
    destruct (custom_cosine_similarity vec1 vec2) as [ similarity | ];
      cbn [bind]; [ | discriminate ].
    intros H. right. split; [ reflexivity | ]. exists similarity.
    split; [ reflexivity | ].
    destruct (float_gt similarity (snd acc)); congruence.
  - intros [= <-]. left. split; reflexivity.
Qed.

Lemma nth_error_snoc {A} (l : list A) (x c : A) (j : nat) :
  nth_error (l ++ [x]) j = Some c ->
  ((j < List.length l)%nat /\ nth_error l j = Some c)
  \/ (j = List.length l /\ c = x).
Proof.
  intros H. destruct (Nat.lt_ge_cases j (List.length l)) as [Hlt | Hge].
  - left. split; [ exact Hlt | ]. rewrite nth_error_app1 in H by exact Hlt. exact H.
  - right. rewrite nth_error_app2 in H by exact Hge.
    destruct (j - List.length l)%nat as [ | k ] eqn:Hk; cbn in H.
    + split; [ lia | congruence ].
    + destruct k; discriminate.
Qed.

Lemma nth_error_in_range {A} (l : list A) (j : nat) (c : A) :
  nth_error l j = Some c -> (j < List.length l)%nat.
Proof. intros H. apply nth_error_Some. congruence. Qed.

Lemma leb_false_ltb_false (a b : spec_float) :
  B64.leb a b = false -> B64.ltb a b = false.
Proof.
  intros H. destruct (B64.ltb a b) eqn:Hlt; [ | reflexivity ].
  rewrite (ltb_leb a b Hlt) in H. discriminate.
Qed.

(** A profile that is skipped, or a candidate that does not score above
    the initial -1, leaves [none_above_initial]. *)
Lemma none_above_initial_snoc (profile : pyval) (new_user_id : Z)
      (seen : list pyval) (other_profile : pyval) :
  none_above_initial profile new_user_id seen ->
  (candidate new_user_id other_profile = true ->
   forall sim, score profile other_profile = Ok sim ->
               float_gt sim (NInt (-1)) = false) ->
  none_above_initial profile new_user_id (seen ++ [other_profile]).
Proof.
  intros Hnone Hother j c sj Hj Hc Hs.
  destruct (nth_error_snoc _ _ _ _ Hj) as [ [_ Hj'] | [_ ->] ].
  - eapply Hnone; eassumption.
  - apply Hother; assumption.
Qed.

(** The profile at position [i] stays the first of the highest score
    when the next profile is skipped or does not score higher. *)
Lemma first_highest_snoc_keep (profile : pyval) (new_user_id : Z)
      (seen : list pyval) (other_profile : pyval) (i : nat) (s : spec_float) :
  (i < List.length seen)%nat ->
  first_highest profile new_user_id seen i s ->
  (candidate new_user_id other_profile = true ->
   forall sim, score profile other_profile = Ok sim -> B64.ltb s sim = false) ->
  first_highest profile new_user_id (seen ++ [other_profile]) i s.
Proof.
  intros Hi Hfirst Hother j c sj Hj Hc Hs.
  destruct (nth_error_snoc _ _ _ _ Hj) as [ [_ Hj'] | [Hlen ->] ].
  - eapply Hfirst; eassumption.
  - split; [ apply Hother; assumption | lia ].
Qed.

(** A candidate that scores above every candidate seen so far becomes
    the first of the highest score. *)
Lemma first_highest_snoc_new (profile : pyval) (new_user_id : Z)
      (seen : list pyval) (other_profile : pyval) (sim : spec_float) :
  score profile other_profile = Ok sim ->
  (forall j c sj,
      nth_error seen j = Some c -> candidate new_user_id c = true ->
      score profile c = Ok sj -> B64.leb sim sj = false) ->
  first_highest profile new_user_id (seen ++ [other_profile])
                (List.length seen) sim.
Proof.
  intros Hsim Hbelow j c sj Hj Hc Hs.
  destruct (nth_error_snoc _ _ _ _ Hj) as [ [_ Hj'] | [Hlen ->] ].
  - pose proof (Hbelow j c sj Hj' Hc Hs) as Hle.
    split; [ apply leb_false_ltb_false, Hle | intros _; exact Hle ].
  - assert (sj = sim) by congruence. subst sj.
    split; [ apply ltb_irrefl | lia ].
Qed.

(** If [h < sim] and [sj] is not above [h], then [sj] is below [sim]. *)
Lemma below_the_new_highest (h sim sj : spec_float) :
  B64.ltb h sim = true -> B64.ltb h sj = false -> B64.leb sim sj = false.
Proof.
  intros Hcmp Hlow. destruct (B64.leb sim sj) eqn:Hle; [ | reflexivity ].
  rewrite (ltb_leb_trans _ _ _ Hcmp Hle) in Hlow. discriminate.
Qed.

Lemma scan_step_invariant (profile : pyval) (new_user_id : Z)
      (seen : list pyval) (acc acc' : pyval * pynum) (other_profile : pyval) :
  scan_invariant profile new_user_id seen acc ->
  scan_step profile new_user_id acc other_profile = Ok acc' ->
  scan_invariant profile new_user_id (seen ++ [other_profile]) acc'.
Proof.
  intros Inv Hstep.
  destruct (scan_step_spec _ _ _ _ _ Hstep) as [ [Hc ->] | (Hc & sim & Hs & ->) ].
  - (* the profile is skipped *)
    destruct Inv as [ [-> Hnone] | (i & s & Hi & Hci & Hsi & Hh & Hgt & Hfirst) ].
    + left. split; [ reflexivity | ].
      apply none_above_initial_snoc; [ exact Hnone | congruence ].
    + right. exists i, s.
      pose proof (nth_error_in_range _ _ _ Hi) as Hlt.
      split; [ rewrite nth_error_app1 by exact Hlt; exact Hi | ].
      repeat (split; [ assumption | ]).
      apply first_highest_snoc_keep; [ exact Hlt | exact Hfirst | congruence ].
  - (* the profile is a candidate of score [sim] *)
    destruct Inv as [ [-> Hnone] | (i & s & Hi & Hci & Hsi & Hh & Hgt & Hfirst) ].
    + cbn [no_match snd].
      destruct (float_gt sim (NInt (-1))) eqn:Hcmp.
      * right. exists (List.length seen), sim. cbn [fst snd].
        split; [ rewrite nth_error_app2, Nat.sub_diag by lia; reflexivity | ].
        repeat (split; [ first [ assumption | reflexivity ] | ]).
        apply first_highest_snoc_new; [ exact Hs | ].
        intros j c sj Hj Hcj Hsj.
        rewrite float_gt_initial in Hcmp.
        apply (below_the_new_highest minus_one); [ exact Hcmp | ].
        rewrite <- float_gt_initial. eapply Hnone; eassumption.
      * left. split; [ reflexivity | ].
        apply none_above_initial_snoc; [ exact Hnone | ].
        intros _ sim' Hs'. congruence.
    + rewrite Hh. cbn [float_gt].
      destruct (B64.ltb s sim) eqn:Hcmp.
      * right. exists (List.length seen), sim. cbn [fst snd].
        split; [ rewrite nth_error_app2, Nat.sub_diag by lia; reflexivity | ].
        split; [ assumption | ].
        split; [ assumption | ].
        split; [ reflexivity | ].
        split.
        -- rewrite float_gt_initial in *. eapply ltb_trans; eassumption.
        -- apply first_highest_snoc_new; [ exact Hs | ].
           intros j c sj Hj Hcj Hsj.
           apply (below_the_new_highest s); [ exact Hcmp | ].
           eapply Hfirst; eassumption.
      * right. exists i, s.
        pose proof (nth_error_in_range _ _ _ Hi) as Hlt.
        split; [ rewrite nth_error_app1 by exact Hlt; exact Hi | ].
        repeat (split; [ assumption | ]).
        apply first_highest_snoc_keep; [ exact Hlt | exact Hfirst | ].
        intros _ sim' Hs'. congruence.
Qed.

Lemma scan_invariant_holds (profile : pyval) (new_user_id : Z)
      (rest : list pyval) :
  forall seen acc acc',
    scan_invariant profile new_user_id seen acc ->
    scan profile new_user_id rest acc = Ok acc' ->
    scan_invariant profile new_user_id (seen ++ rest) acc'.
Proof.
  induction rest as [ | other_profile rest IH ]; intros seen acc acc' Inv; cbn [scan].
  - intros [= <-]. rewrite app_nil_r. exact Inv.
  - destruct (scan_step profile new_user_id acc other_profile) as [ acc1 | ] eqn:Hstep;
      cbn [bind]; [ | discriminate ].
    intros Hscan.
    replace (seen ++ other_profile :: rest)%list
      with ((seen ++ [other_profile]) ++ rest)%list
      by (rewrite <- app_assoc; reflexivity).
    eapply IH; [ | exact Hscan ].
    eapply scan_step_invariant; eassumption.
Qed.

(** Only a candidate is ever held as the best match. *)
Lemma candidate_not_none (new_user_id : Z) : candidate new_user_id PNone = false.
Proof. reflexivity. Qed.

Lemma scan_from_start (profile : pyval) (new_user_id : Z)
      (profiles : list pyval) (acc : pyval * pynum) :
  scan profile new_user_id profiles no_match = Ok acc ->
  scan_invariant profile new_user_id profiles acc.
Proof.
  intros H.
  apply (scan_invariant_holds profile new_user_id profiles [] no_match acc);
    [ | exact H ].
  left. split; [ reflexivity | ].
  intros j c sj Hj. destruct j; discriminate.
Qed.

(** The scan returns no profile only when no candidate scores above the
    initial -1. *)
Lemma scan_returns_none_only_below_initial (profile : pyval) (new_user_id : Z)
      (profiles : list pyval) (highest_similarity : pynum) :
  scan profile new_user_id profiles no_match = Ok (PNone, highest_similarity) ->
  highest_similarity = NInt (-1) /\
  none_above_initial profile new_user_id profiles.
Proof.
  intros H. destruct (scan_from_start _ _ _ _ H) as [ [Heq Hnone] | Hsome ].
  - split; [ inversion Heq; reflexivity | exact Hnone ].
  - destruct Hsome as (i & s & _ & Hc & _). cbn [fst] in Hc.
    rewrite candidate_not_none in Hc. discriminate.
Qed.

(* ================================================================== *)
(** ** Dictionaries and stored profiles *)
(* ================================================================== *)

Lemma lookup_store_key_same (k : string) (v : pyval) (d : list (string * pyval)) :
  lookup k (store_key k v d) = Some v.
Proof.
  induction d as [ | [k' v'] d IH ]; cbn [store_key lookup].
  - rewrite String.eqb_refl. reflexivity.
  - destruct (String.eqb k k') eqn:Hk; cbn [lookup].
    + rewrite String.eqb_refl. reflexivity.
    + rewrite Hk. exact IH.
Qed.

Lemma lookup_store_key_other (k k' : string) (v : pyval) (d : list (string * pyval)) :
  String.eqb k k' = false ->
  lookup k (store_key k' v d) = lookup k d.
Proof.
  intros Hkk'. induction d as [ | [k0 v0] d IH ]; cbn [store_key lookup].
  - rewrite Hkk'. reflexivity.
  - destruct (String.eqb k' k0) eqn:Hk; cbn [lookup].
    + apply String.eqb_eq in Hk. subst k0. rewrite Hkk'. reflexivity.
    + destruct (String.eqb k k0); [ reflexivity | exact IH ].
Qed.

Lemma well_formed_with_id (d : list (string * pyval)) (v : pyval) :
  well_formed (PDict (store_key "id" v d)) = well_formed (PDict d).
Proof.
  unfold well_formed.
  rewrite !lookup_store_key_other by reflexivity. reflexivity.
Qed.

Lemma profile_id_with_id (d : list (string * pyval)) (k : Z) :
  profile_id (PDict (store_key "id" (PInt k) d)) = Some k.
Proof.
  unfold profile_id, py_getitem. rewrite lookup_store_key_same. reflexivity.
Qed.

Lemma floats_of_list (l : list pyval) :
  forallb is_float l = true -> exists fs, l = map PFloat fs.
Proof.
  induction l as [ | v l IH ]; cbn [forallb]; intros H.
  - exists []. reflexivity.
  - apply andb_prop in H. destruct H as [Hv Hl].
    destruct (IH Hl) as [fs ->].
    destruct v; try discriminate. exists (f :: fs). reflexivity.
Qed.

Lemma join_strs_ok (sep : string) (l : list pyval) :
  forallb is_str l = true -> exists s, join_strs sep l = Ok s.
Proof.
  induction l as [ | v l IH ]; cbn [forallb]; intros H.
  - exists EmptyString. reflexivity.
  - apply andb_prop in H. destruct H as [Hv Hl].
    destruct v; try discriminate. cbn [join_strs].
    destruct l as [ | w l ]; [ eexists; reflexivity | ].
    destruct (IH Hl) as [t Ht]. rewrite Ht. eexists. reflexivity.
Qed.

(** What a well-formed profile offers to the scan and to the join. *)
Lemma well_formed_inv (profile : pyval) :
  well_formed profile = true ->
  exists d fs interests,
    profile = PDict d /\
    lookup "personality_vector" d = Some (floats fs) /\
    lookup "interests" d = Some (PList interests) /\
    forallb is_str interests = true.
Proof.
  unfold well_formed. destruct profile as [ | | | | | | d ]; try discriminate.
  destruct (lookup "personality_vector" d) as [ [ | | | | | vec | ] | ] eqn:Hvec;
    try discriminate.
  destruct (lookup "interests" d) as [ [ | | | | | interests | ] | ] eqn:Hint;
    try discriminate.
  intros H. apply andb_prop in H. destruct H as [Hv Hi].
  destruct (floats_of_list vec Hv) as [fs ->].
  exists d, fs, interests. repeat split; first [ reflexivity | assumption ].
Qed.

Lemma stored_ok_inv (profile : pyval) :
  stored_ok profile = true ->
  exists k fs,
    py_getitem profile "id" = Ok (PInt k) /\
    py_getitem profile "personality_vector" = Ok (floats fs).
Proof.
  unfold stored_ok. intros H. apply andb_prop in H. destruct H as [Hw Hid].
  destruct (well_formed_inv profile Hw) as (d & fs & interests & -> & Hv & _).
  unfold has_id, profile_id in Hid.
  destruct (py_getitem (PDict d) "id") as [ [ | | k | | | | ] | ] eqn:Hk;
    try discriminate.
  exists k, fs. split; [ reflexivity | ].
  cbn [py_getitem]. rewrite Hv. reflexivity.
Qed.

(** On a store of well-formed profiles every iteration of the scan
    succeeds. *)
Lemma scan_ok (profile : pyval) (new_user_id : Z) (fs : list spec_float) :
  py_getitem profile "personality_vector" = Ok (floats fs) ->
  forall profiles acc,
    forallb stored_ok profiles = true ->
    exists acc', scan profile new_user_id profiles acc = Ok acc'.
Proof.
  intros Hv profiles. induction profiles as [ | other_profile rest IH ];
    intros acc Hall; cbn [scan].
  - eexists. reflexivity.
  - cbn [forallb] in Hall. apply andb_prop in Hall. destruct Hall as [Ho Hrest].
    destruct (stored_ok_inv other_profile Ho) as (k & gs & Hid & Hvec).
    unfold scan_step. rewrite Hid. cbn [bind].
    destruct (py_ne_int (PInt k) new_user_id).
    + rewrite Hv, Hvec. cbn [bind]. rewrite similarity_floats. cbn [bind].
      destruct (float_gt (spec_similarity fs gs) (snd acc)); cbn [bind];
        apply IH, Hrest.
    + cbn [bind]. apply IH, Hrest.
Qed.

(* ================================================================== *)
(** ** One call of [mero_ai] *)
(* ================================================================== *)

Lemma well_formed_truthy (profile : pyval) :
  well_formed profile = true -> py_truthy profile = true.
Proof.
  intros H. destruct (well_formed_inv profile H) as (d & fs & i & -> & Hv & _).
  destruct d; [ discriminate | reflexivity ].
Qed.

Lemma candidate_truthy (new_user_id : Z) (profile : pyval) :
  candidate new_user_id profile = true ->
  py_truthy profile = true /\ exists i, py_getitem profile "id" = Ok i.
Proof.
  unfold candidate. destruct profile as [ | | | | | | d ]; try discriminate.
  cbn [py_getitem]. destruct d as [ | kv d ]; [ discriminate | ].
  destruct (lookup "id" (kv :: d)); [ | discriminate ].
  intros _. split; [ reflexivity | eexists; reflexivity ].
Qed.

Lemma float_gt_initial_not_nan (s : spec_float) :
  float_gt s (NInt (-1)) = true -> s <> S754_nan.
Proof. intros H ->. discriminate. Qed.

(** After a scan the message is built, unless the percentage is
    infinite. *)
Lemma respond_after_scan (profile : pyval) (new_user_id : Z)
      (seen : list pyval) (acc : pyval * pynum) (interests_output : string) :
  scan_invariant profile new_user_id seen acc ->
  (exists connection,
      respond (fst acc, snd acc, interests_output)
      = Ok (Sensing interests_output connection))
  \/ respond (fst acc, snd acc, interests_output) = Raise OverflowError.
Proof.
  intros [ [-> _] | (i & s & _ & Hc & _ & Hh & Hgt & _) ].
  - left. exists None. reflexivity.
  - destruct (candidate_truthy _ _ Hc) as [Ht [match_id Hid]].
    unfold respond. rewrite Ht, Hh, Hid.
    pose proof (mul_finite_not_nan s false 7036874417766400 (-46)
                  (float_gt_initial_not_nan s Hgt)) as Hnan.
    change (arith Z.mul B64.mul (NFloat s) (NInt 100))
      with (Ok (NFloat (B64.mul s (S754_finite false 7036874417766400 (-46))))).
    cbn [bind py_round].
    destruct (B64.mul s (S754_finite false 7036874417766400 (-46)));
      cbn [bind]; try congruence; try (left; eexists; reflexivity).
    right. reflexivity.
Qed.

Lemma find_best_match_invariant (profile : pyval) (new_user_id : Z)
      (memory : list pyval) (acc : pyval * pynum) :
  find_best_match profile new_user_id memory = Ok acc ->
  acc = no_match \/ scan_invariant profile new_user_id memory acc.
Proof.
  unfold find_best_match. destruct (1 <? Z.of_nat (List.length memory)).
  - intros H. right. apply scan_from_start, H.
  - intros [= <-]. left. reflexivity.
Qed.

(** Ingestion of a well-formed analyzer result into a store of
    well-formed profiles. *)
Lemma ingest_well_formed (profile : pyval) (st : state) :
  well_formed profile = true ->
  forallb stored_ok (user_profiles_memory st) = true ->
  exists stored found interests_output,
    ingest profile st =
      (Ok (fst found, snd found, interests_output),
       {| user_profiles_memory := (user_profiles_memory st ++ [stored])%list;
          USER_ID_COUNTER := USER_ID_COUNTER st + 1 |}) /\
    stored_ok stored = true /\
    profile_id stored = Some (USER_ID_COUNTER st + 1) /\
    find_best_match stored (USER_ID_COUNTER st + 1)
                    (user_profiles_memory st ++ [stored])%list = Ok found.
Proof.
  intros Hw Hst.
  destruct (well_formed_inv profile Hw) as (d & fs & interests & -> & Hv & Hi & Hs).
  set (c := USER_ID_COUNTER st + 1).
  set (stored := PDict (store_key "id" (PInt c) d)).
  assert (Hok : stored_ok stored = true).
  { unfold stored_ok, stored. rewrite well_formed_with_id, Hw.
    unfold has_id. rewrite profile_id_with_id. reflexivity. }
  assert (Hvec : py_getitem stored "personality_vector" = Ok (floats fs)).
  { unfold stored. cbn [py_getitem].
    rewrite lookup_store_key_other by reflexivity. rewrite Hv. reflexivity. }
  assert (Hall : forallb stored_ok (user_profiles_memory st ++ [stored]) = true).
  { rewrite forallb_app, Hst. cbn [forallb]. rewrite Hok. reflexivity. }
  assert (Hfind : exists found,
             find_best_match stored c (user_profiles_memory st ++ [stored])%list
             = Ok found).
  { unfold find_best_match.
    destruct (1 <? Z.of_nat (List.length (user_profiles_memory st ++ [stored])%list)).
    - apply (scan_ok stored c fs Hvec), Hall.
    - eexists. reflexivity. }
  destruct Hfind as [found Hfind].
  destruct (join_strs_ok ", " interests Hs) as [interests_output Hjoin].
  exists stored, found, interests_output.
  repeat split; try assumption.
  - unfold ingest. cbn [py_setitem]. fold c. fold stored.
    rewrite Hfind. cbn [bind].
    unfold stored at 1. cbn [py_getitem].
    rewrite lookup_store_key_other by reflexivity. rewrite Hi. cbn [bind].
    unfold py_join. cbn [py_iter bind]. rewrite Hjoin. reflexivity.
  - unfold stored. apply profile_id_with_id.
Qed.

(** How one call changes the two globals. *)
Lemma mero_ai_state (analysis : pyval) (st : state) :
  (py_truthy analysis = false /\ mero_ai analysis st = (Ok Sorry, st))
  \/ (py_truthy analysis = true /\ is_dict analysis = false /\
      mero_ai analysis st =
        (Raise TypeError,
         {| user_profiles_memory := user_profiles_memory st;
            USER_ID_COUNTER := USER_ID_COUNTER st + 1 |}))
  \/ (py_truthy analysis = true /\
      exists d,
        analysis = PDict d /\
        snd (mero_ai analysis st) =
          {| user_profiles_memory :=
               (user_profiles_memory st
                  ++ [PDict (store_key "id" (PInt (USER_ID_COUNTER st + 1)) d)])%list;
             USER_ID_COUNTER := USER_ID_COUNTER st + 1 |}).
Proof.
  unfold mero_ai. destruct (py_truthy analysis) eqn:Ht; cbn [negb].
  - right. destruct analysis as [ | | | | | | d ];
      try (left; repeat split; reflexivity).
    right. split; [ reflexivity | ]. exists d. split; reflexivity.
  - left. split; reflexivity.
Qed.

(* ================================================================== *)
(** ** Identifiers over a run *)
(* ================================================================== *)

Lemma increasing_snoc (ks : list Z) : forall lo c,
  increasing lo ks = true -> Forall (fun k => k < c) ks -> lo < c ->
  increasing lo (ks ++ [c]) = true.
Proof.
  induction ks as [ | k ks IH ]; intros lo c Hinc Hall Hlo; cbn [app increasing] in *.
  - rewrite andb_true_r. apply Z.ltb_lt, Hlo.
  - apply andb_prop in Hinc. destruct Hinc as [H1 H2].
    inversion Hall as [ | ? ? Hk Hks ]; subst.
    rewrite H1. cbn [andb]. apply IH; assumption.
Qed.

Lemma increasing_lower (ks : list Z) : forall lo,
  increasing lo ks = true -> Forall (fun k => lo < k) ks.
Proof.
  induction ks as [ | k ks IH ]; intros lo Hinc; cbn [increasing] in Hinc.
  - constructor.
  - apply andb_prop in Hinc. destruct Hinc as [H1 H2].
    apply Z.ltb_lt in H1. constructor; [ exact H1 | ].
    eapply Forall_impl; [ | apply IH, H2 ]. cbn. intros; lia.
Qed.

Lemma increasing_NoDup (ks : list Z) : forall lo,
  increasing lo ks = true -> NoDup ks.
Proof.
  induction ks as [ | k ks IH ]; intros lo Hinc; cbn [increasing] in Hinc.
  - constructor.
  - apply andb_prop in Hinc. destruct Hinc as [_ H2]. constructor.
    + intros Hin. pose proof (increasing_lower ks k H2) as Hall.
      rewrite Forall_forall in Hall. specialize (Hall k Hin). lia.
    + eapply IH, H2.
Qed.

Lemma first_ids_succ (n : nat) :
  first_ids (S n) = (first_ids n ++ [Z.of_nat (S n)])%list.
Proof.
  unfold first_ids. rewrite seq_S, map_app. reflexivity.
Qed.

Lemma mero_ai_ids_increasing (analysis : pyval) (st : state) :
  0 <= USER_ID_COUNTER st -> ids_increasing st ->
  0 <= USER_ID_COUNTER (snd (mero_ai analysis st))
  /\ ids_increasing (snd (mero_ai analysis st)).
Proof.
  intros Hc (ks & Hids & Hinc & Hall).
  destruct (mero_ai_state analysis st)
    as [ [_ ->] | [ (_ & _ & ->) | (_ & d & _ & ->) ] ]; cbn [snd].
  - split; [ exact Hc | ]. exists ks. repeat split; assumption.
  - unfold ids_increasing. cbn [USER_ID_COUNTER]. split; [ lia | ].
    exists ks. repeat split; try assumption.
    eapply Forall_impl; [ | exact Hall ]. cbn. intros; lia.
  - unfold ids_increasing. cbn [USER_ID_COUNTER]. split; [ lia | ].
    exists (ks ++ [USER_ID_COUNTER st + 1])%list. repeat split.
    + unfold stored_ids in *. cbn [user_profiles_memory].
      rewrite !map_app, Hids. cbn [map]. rewrite profile_id_with_id. reflexivity.
    + apply increasing_snoc; [ exact Hinc | | lia ].
      eapply Forall_impl; [ | exact Hall ]. cbn. intros; lia.
    + apply Forall_app. split.
      * eapply Forall_impl; [ | exact Hall ]. cbn. intros; lia.
      * constructor; [ lia | constructor ].
Qed.

Lemma run_ids_increasing (analyses : list pyval) : forall st,
  0 <= USER_ID_COUNTER st -> ids_increasing st ->
  ids_increasing (snd (run analyses st)).
Proof.
  induction analyses as [ | a rest IH ]; intros st Hc Hinv; cbn [run].
  - exact Hinv.
  - destruct (mero_ai_ids_increasing a st Hc Hinv) as [Hc' Hinv'].
    destruct (mero_ai a st) as [r st']. cbn [snd] in *.
    specialize (IH st' Hc' Hinv').
    destruct (run rest st') as [rs st'']. exact IH.
Qed.

Lemma mero_ai_ids_consecutive (analysis : pyval) (st : state) :
  negb (py_truthy analysis) || is_dict analysis = true ->
  ids_consecutive st -> ids_consecutive (snd (mero_ai analysis st)).
Proof.
  intros Hobj [Hc Hids].
  destruct (mero_ai_state analysis st)
    as [ [_ ->] | [ (Ht & Hd & _) | (_ & d & _ & ->) ] ]; cbn [snd].
  - split; assumption.
  - rewrite Ht, Hd in Hobj. discriminate.
  - unfold ids_consecutive, stored_ids in *.
    cbn [user_profiles_memory USER_ID_COUNTER].
    rewrite length_app, Nat.add_1_r. cbn [List.length]. split; [ lia | ].
    rewrite map_app, Hids, first_ids_succ, map_app. cbn [map].
    rewrite profile_id_with_id. repeat f_equal. lia.
Qed.

Lemma run_ids_consecutive (analyses : list pyval) : forall st,
  objects_only analyses = true ->
  ids_consecutive st -> ids_consecutive (snd (run analyses st)).
Proof.
  induction analyses as [ | a rest IH ]; intros st Hobj Hinv; cbn [run].
  - exact Hinv.
  - cbn [objects_only forallb] in Hobj. apply andb_prop in Hobj.
    destruct Hobj as [Ha Hrest].
    pose proof (mero_ai_ids_consecutive a st Ha Hinv) as Hinv'.
    destruct (mero_ai a st) as [r st']. cbn [snd] in *.
    specialize (IH st' Hrest Hinv').
    destruct (run rest st') as [rs st'']. exact IH.
Qed.

(* ================================================================== *)
(** ** Further facts used by the properties *)
(* ================================================================== *)

Lemma combine_firstn_min {A B} (a : list A) : forall b : list B,
  combine a b
  = combine (firstn (Nat.min (List.length a) (List.length b)) a)
            (firstn (Nat.min (List.length a) (List.length b)) b).
Proof.
  induction a as [ | x a IH ]; intros [ | y b ]; cbn; try reflexivity.
  f_equal. apply IH.
Qed.

Lemma fold_add_zeros (ts : list spec_float) :
  Forall (fun t => t = B64.zero) ts -> fold_left B64.add ts B64.zero = B64.zero.
Proof.
  induction 1 as [ | t ts -> _ IH ]; cbn [fold_left]; [ reflexivity | exact IH ].
Qed.

Lemma norm_zeros (a : list spec_float) :
  forallb B64.is_zero a = true -> norm a = B64.zero.
Proof.
  intros Ha. unfold norm, fsum. rewrite fold_add_zeros; [ reflexivity | ].
  apply Forall_forall. intros t Ht. apply in_map_iff in Ht.
  destruct Ht as (p & <- & Hp).
  rewrite forallb_forall in Ha. specialize (Ha p Hp).
  destruct p as [ [ | ] | | | ]; try discriminate; reflexivity.
Qed.

Lemma sum_from_numbers {A} (f : A -> result pyval) (xs : list A) :
  (forall x, In x xs -> match f x with
                        | Ok r => is_number r = true
                        | Raise e => e = OverflowError
                        end) ->
  forall acc,
    is_number acc = true ->
    match sum_from f xs acc with
    | Ok r => is_number r = true
    | Raise e => e = OverflowError
    end.
Proof.
  induction xs as [ | x xs IH ]; intros Hf acc Hacc; cbn [sum_from].
  - exact Hacc.
  - pose proof (Hf x (or_introl eq_refl)) as Hx.
    destruct (f x) as [ t | e ]; cbn [bind]; [ | exact Hx ].
    pose proof (py_add_numbers acc t Hacc Hx) as Ha.
    destruct (py_add acc t) as [ acc' | e ]; cbn [bind]; [ | exact Ha ].
    apply IH; [ | exact Ha ]. intros y Hy. apply Hf. right. exact Hy.
Qed.

Lemma dot_product_numbers (xs ys : list pyval) :
  forallb is_number xs = true -> forallb is_number ys = true ->
  match dot_product_of xs ys with
  | Ok r => is_number r = true
  | Raise e => e = OverflowError
  end.
Proof.
  intros Hxs Hys. unfold dot_product_of, py_sum.
  apply sum_from_numbers; [ | reflexivity ].
  intros [p q] Hin. cbn [fst snd].
  rewrite forallb_forall in Hxs, Hys.
  apply py_mul_numbers.
  - apply Hxs. eapply in_combine_l, Hin.
  - apply Hys. eapply in_combine_r, Hin.
Qed.

Lemma similarity_numbers_raises (xs ys : list pyval) (e : exn) :
  forallb is_number xs = true -> forallb is_number ys = true ->
  custom_cosine_similarity (PList xs) (PList ys) = Raise e -> e = OverflowError.
Proof.
  intros Hxs Hys H.
  assert (Hno : e <> TypeError /\ e <> MemoryError).
  { revert H. rewrite similarity_unfold. cbn [py_iter bind].
    pose proof (dot_product_numbers xs ys Hxs Hys) as Hd.
    destruct (dot_product_of xs ys) as [ d | e1 ]; cbn [bind];
      [ | intros [= <-]; subst e1; split; discriminate ].
    destruct (magnitude xs) as [ m1 | e1 ] eqn:H1; cbn [bind].
    2:{ rewrite (magnitude_numbers xs e1 Hxs H1).
        intros [= <-]. split; discriminate. }
    destruct (magnitude ys) as [ m2 | e2 ] eqn:H2; cbn [bind].
    2:{ rewrite (magnitude_numbers ys e2 Hys H2).
        intros [= <-]. split; discriminate. }
    destruct (negb (float_truthy m1) || negb (float_truthy m2)); [ discriminate | ].
    unfold py_truediv. destruct (as_num_number d Hd) as [x ->].
    destruct (num_to_float x) as [ a | e3 ] eqn:Hx; cbn [bind].
    - destruct (B64.is_zero (B64.mul m1 m2)); [ | discriminate ].
      intros [= <-]. split; discriminate.
    - rewrite (num_to_float_raises x e3 Hx). intros [= <-]. split; discriminate. }
  destruct Hno as [Hty Hmem].
  destruct (similarity_raises _ _ _ H) as [ He | [ He | He ] ];
    [ contradiction | exact He | contradiction ].
Qed.

Lemma scan_no_candidates (profile : pyval) (new_user_id : Z) (profiles : list pyval) :
  (forall c, In c profiles ->
             exists i, py_getitem c "id" = Ok i /\ py_ne_int i new_user_id = false) ->
  forall acc, scan profile new_user_id profiles acc = Ok acc.
Proof.
  induction profiles as [ | other_profile rest IH ]; intros Hall acc; cbn [scan].
  - reflexivity.
  - destruct (Hall other_profile (or_introl eq_refl)) as (i & Hi & Hne).
    unfold scan_step. rewrite Hi. cbn [bind]. rewrite Hne. cbn [bind].
    apply IH. intros c Hc. apply Hall. right. exact Hc.
Qed.

(* ================================================================== *)
(** ** The properties of the specification *)
(* ================================================================== *)

(** The theorems hold on every machine.  The inputs at which a statement
    of the specification fails are given at the end, together with an
    instance of every conditional theorem. *)

(** *** C1: vectors of unequal length *)

(** C1, amended: the lengths are not checked.  On vectors of floats of
    any two lengths the function returns the number
    [dot / (norm * norm)] of the specification (0.0 for a zero norm), in
    which the dot product ranges over the first [min] components of both
    vectors, as [zip] stops at the shorter one, and each norm over its
    whole vector. *)
Theorem C1_similarity_truncates_to_the_shorter (a b : list spec_float) :
  custom_cosine_similarity (floats a) (floats b) = Ok (spec_similarity a b) /\
  dot a b = dot (firstn (Nat.min (List.length a) (List.length b)) a)
                (firstn (Nat.min (List.length a) (List.length b)) b).
Proof.
  split; [ apply similarity_floats | ].
  unfold dot. rewrite <- combine_firstn_min. reflexivity.
Qed.

(** *** C2: the initial sentinel *)

(** C2 at its failing input: the store holds one profile of vector
    [1, 0, 0, 0, 0]; the new profile has vector [-1, 0, 0, 0, 0].  The
    stored profile is a candidate and its score is -1.0, which is not
    greater than the initial -1: no match is returned and the reply takes
    the "one of the first" path. *)
Example C2_candidate_scoring_minus_one_is_skipped :
  let st := snd (mero_ai alice initial_state) in
  user_profiles_memory st = [with_id 1 alice] /\
  candidate 2 (with_id 1 alice) = true /\
  score (with_id 2 erin) (with_id 1 alice) = Ok minus_one /\
  find_best_match (with_id 2 erin) 2 [with_id 1 alice; with_id 2 erin]
  = Ok no_match /\
  fst (mero_ai erin st) = Ok (Sensing "opera" None).
Proof. vm_compute. repeat split; reflexivity. Qed.

(** *** C3: first of the highest *)


(** *** C4: zero norm *)

(** C4, amended: whenever the dot product and the two magnitudes are
    computed and a magnitude is a zero, the result is exactly 0.0; on
    vectors of floats, of any lengths, they are always computed, so a
    zero norm gives exactly 0.0, and a vector of zeros has a zero norm. *)
Theorem C4_zero_norm_gives_zero :
  (forall xs1 xs2 d m1 m2,
      dot_product_of xs1 xs2 = Ok d ->
      magnitude xs1 = Ok m1 -> magnitude xs2 = Ok m2 ->
      B64.is_zero m1 || B64.is_zero m2 = true ->
      custom_cosine_similarity (PList xs1) (PList xs2) = Ok B64.zero) /\
  (forall a b : list spec_float,
      magnitude (map PFloat a) = Ok (norm a) /\
      (B64.is_zero (norm a) || B64.is_zero (norm b) = true ->
       custom_cosine_similarity (floats a) (floats b) = Ok B64.zero) /\
      (forallb B64.is_zero a = true -> B64.is_zero (norm a) = true)).
Proof.
  split.
  - intros xs1 xs2 d m1 m2 Hd H1 H2 Hz.
    rewrite similarity_unfold. cbn [py_iter bind].
    rewrite Hd, H1, H2. cbn [bind].
    unfold float_truthy. rewrite !negb_involutive, Hz. reflexivity.
  - intros a b. split; [ apply magnitude_floats | split ].
    + intros Hz. rewrite similarity_floats. unfold spec_similarity.
      rewrite Hz. reflexivity.
    + intros Ha. rewrite norm_zeros by exact Ha. reflexivity.
Qed.

(** *** C5: malformed analyzer results *)

(** C5, amended: when the analyzer result is a JSON object with a list
    of floats under "personality_vector" and a list of strings under
    "interests", and every stored profile has that shape, lines 72-91
    complete without an exception, the store keeps that shape, and the
    call returns its message unless [round] meets an infinite
    percentage. *)
Theorem C5_well_formed_results_are_ingested (profile : pyval) (st : state) :
  well_formed profile = true ->
  forallb stored_ok (user_profiles_memory st) = true ->
  (exists ingested, fst (ingest profile st) = Ok ingested) /\
  forallb stored_ok (user_profiles_memory (snd (mero_ai profile st))) = true /\
  ((exists interests_output connection,
       fst (mero_ai profile st) = Ok (Sensing interests_output connection))
   \/ fst (mero_ai profile st) = Raise OverflowError).
Proof.
  intros Hw Hst.
  destruct (ingest_well_formed profile st Hw Hst)
    as (stored & found & io & Hing & Hok & _ & Hfind).
  unfold mero_ai. rewrite (well_formed_truthy profile Hw). cbn [negb].
  rewrite Hing. cbn [fst snd bind user_profiles_memory].
  split; [ eexists; reflexivity | split ].
  - rewrite forallb_app, Hst. cbn [forallb]. rewrite Hok. reflexivity.
  - destruct (find_best_match_invariant _ _ _ _ Hfind) as [ -> | Hinv ].
    + left. exists io, None. reflexivity.
    + destruct (respond_after_scan _ _ _ _ io Hinv) as [ [c Hc] | Hc ].
      * left. exists io, c. exact Hc.
      * right. exact Hc.
Qed.

(** *** C6: identifiers *)

(** C6, amended: after any sequence of calls the identifiers in the
    store are strictly increasing in store order, hence unique, positive
    and at most the counter; when every analyzer result that passes the
    check of line 69 is a JSON object, they are exactly 1, 2, ..., n and
    the counter is n; a call that returns its message has appended
    exactly one profile, whose identifier is the previous counter plus
    one; and no call does anything to the store but append at most one
    profile. *)
Theorem C6_identifiers_increase (analyses : list pyval) :
  let st := snd (run analyses initial_state) in
  (exists ks,
      stored_ids st = map Some ks /\
      increasing 0 ks = true /\ NoDup ks /\
      Forall (fun k => k <= USER_ID_COUNTER st) ks) /\
  (objects_only analyses = true ->
   USER_ID_COUNTER st = Z.of_nat (List.length (user_profiles_memory st)) /\
   stored_ids st = map Some (first_ids (List.length (user_profiles_memory st)))) /\
  (forall analysis st0 interests_output connection,
      fst (mero_ai analysis st0) = Ok (Sensing interests_output connection) ->
      exists stored,
        user_profiles_memory (snd (mero_ai analysis st0))
        = (user_profiles_memory st0 ++ [stored])%list /\
        profile_id stored = Some (USER_ID_COUNTER st0 + 1) /\
        USER_ID_COUNTER (snd (mero_ai analysis st0)) = USER_ID_COUNTER st0 + 1) /\
  (forall analysis st0,
      exists appended,
        user_profiles_memory (snd (mero_ai analysis st0))
        = (user_profiles_memory st0 ++ appended)%list /\
        (List.length appended <= 1)%nat).
Proof.
  cbv zeta. split; [ | split; [ | split ] ].
  - assert (Hinit : ids_increasing initial_state).
    { exists []. repeat split; constructor. }
    destruct (run_ids_increasing analyses initial_state (Z.le_refl 0) Hinit)
      as (ks & Hids & Hinc & Hall).
    exists ks. repeat split; try assumption.
    eapply increasing_NoDup, Hinc.
  - intros Hobj.
    apply (run_ids_consecutive analyses initial_state Hobj). split; reflexivity.
  - intros analysis st0 io c Hreply.
    destruct (mero_ai_state analysis st0)
      as [ [_ Heq] | [ (_ & _ & Heq) | (_ & d & _ & Heq) ] ].
    + rewrite Heq in Hreply. discriminate.
    + rewrite Heq in Hreply. discriminate.
    + rewrite Heq. cbn [user_profiles_memory USER_ID_COUNTER].
      eexists. repeat split. apply profile_id_with_id.
  - intros analysis st0.
    destruct (mero_ai_state analysis st0)
      as [ [_ Heq] | [ (_ & _ & Heq) | (_ & d & _ & Heq) ] ]; rewrite Heq;
      cbn [snd user_profiles_memory].
    + exists []. rewrite app_nil_r. split; [ reflexivity | cbn; lia ].
    + exists []. rewrite app_nil_r. split; [ reflexivity | cbn; lia ].
    + eexists. split; [ reflexivity | cbn; lia ].
Qed.

(** *** C7: no analysis *)

(** C7: when the analysis returns [None], and more generally a value
    that is false at line 69, [mero_ai] returns the fixed apology and
    both globals are as before. *)
Theorem C7_no_analysis_leaves_the_store (st : state) :
  mero_ai PNone st = (Ok Sorry, st) /\
  (forall analysis,
      py_truthy analysis = false -> mero_ai analysis st = (Ok Sorry, st)).
Proof.
  split; [ reflexivity | ].
  intros analysis H. unfold mero_ai. rewrite H. reflexivity.
Qed.

(** *** C8: no candidate *)

(** C8: the match scan returns no match, [None] with the initial -1,
    when the store is empty, when it holds the new profile only, and
    whenever none of its profiles is a candidate; the first ingestion
    into an empty store, when it returns a message, returns the one
    without a matched profile, and it does return it for a well-formed
    analyzer result. *)
Theorem C8_no_candidate_no_match :
  (forall profile new_user_id,
      find_best_match profile new_user_id [] = Ok no_match) /\
  (forall profile new_user_id stored,
      find_best_match profile new_user_id [stored] = Ok no_match) /\
  (forall profile new_user_id memory,
      (forall c, In c memory ->
                 exists i, py_getitem c "id" = Ok i /\
                           py_ne_int i new_user_id = false) ->
      find_best_match profile new_user_id memory = Ok no_match) /\
  (forall analysis counter r,
      fst (mero_ai analysis {| user_profiles_memory := [];
                               USER_ID_COUNTER := counter |}) = Ok r ->
      r = Sorry \/ exists interests_output, r = Sensing interests_output None) /\
  (forall analysis counter,
      well_formed analysis = true ->
      exists interests_output,
        fst (mero_ai analysis {| user_profiles_memory := [];
                                 USER_ID_COUNTER := counter |})
        = Ok (Sensing interests_output None)).
Proof.
  assert (Hfirst : forall analysis counter r,
             fst (mero_ai analysis {| user_profiles_memory := [];
                                      USER_ID_COUNTER := counter |}) = Ok r ->
             r = Sorry \/ exists interests_output, r = Sensing interests_output None).
  { intros analysis counter r. unfold mero_ai.
    destruct (py_truthy analysis); cbn [negb].
    - unfold ingest. destruct (py_setitem analysis "id" (PInt _)) as [ p | ];
        cbn [fst snd bind user_profiles_memory app]; [ | discriminate ].
      unfold find_best_match. cbn [List.length Z.of_nat Z.ltb Z.compare bind].
      destruct (py_getitem p "interests") as [ i | ]; cbn [bind]; [ | discriminate ].
      destruct (py_join ", " i) as [ io | ]; cbn [bind]; [ | discriminate ].
      intros [= <-]. right. exists io. reflexivity.
    - intros [= <-]. left. reflexivity. }
  split; [ reflexivity | split; [ reflexivity | split; [ | split ] ] ].
  - intros profile new_user_id memory Hall. unfold find_best_match.
    destruct (1 <? Z.of_nat (List.length memory)); [ | reflexivity ].
    apply scan_no_candidates, Hall.
  - exact Hfirst.
  - intros analysis counter Hw.
    destruct (ingest_well_formed
                analysis {| user_profiles_memory := []; USER_ID_COUNTER := counter |}
                Hw eq_refl)
      as (stored & found & io & Hing & _ & _ & Hfind).
    cbn [user_profiles_memory USER_ID_COUNTER app] in Hing, Hfind.
    unfold find_best_match in Hfind.
    cbn [List.length Z.of_nat Z.ltb Z.compare] in Hfind.
    injection Hfind as <-.
    exists io. unfold mero_ai. rewrite (well_formed_truthy analysis Hw).
    cbn [negb]. rewrite Hing. reflexivity.
Qed.

(** *** C9: symmetry *)

(** C9: on two lists of numbers, of equal length or not, the two
    orders of the arguments give the same result, the same float or the
    same exception; and Python's [==] holds of the two floats unless
    they are NaN. *)
Theorem C9_similarity_is_symmetric (a b : list pyval) :
  forallb is_number a = true -> forallb is_number b = true ->
  custom_cosine_similarity (PList a) (PList b)
  = custom_cosine_similarity (PList b) (PList a) /\
  (forall x,
      custom_cosine_similarity (PList a) (PList b) = Ok x -> x <> S754_nan ->
      exists y,
        custom_cosine_similarity (PList b) (PList a) = Ok y /\
        B64.eqb x y = true).
Proof.
  intros Ha Hb.
  pose proof (similarity_numbers_symmetric a b Ha Hb) as Hsym.
  split; [ exact Hsym | ].
  intros x Hx Hnan. exists x. rewrite <- Hsym.
  split; [ exact Hx | apply eqb_refl, Hnan ].
Qed.

(** *** C10: totality *)

(** C10, amended: on two lists of floats of any lengths the function
    returns a float, 0.0 for two empty lists; on any arguments at all the
    division is reached with a non-zero divisor only, so it never raises
    ZeroDivisionError, and [math.sqrt] never meets a negative number; on
    lists of numbers the only exception is the OverflowError of an int
    too large for a float. *)
Theorem C10_similarity_total_on_floats :
  (forall a b : list spec_float,
      exists x, custom_cosine_similarity (floats a) (floats b) = Ok x) /\
  custom_cosine_similarity (floats []) (floats []) = Ok B64.zero /\
  (forall vec1 vec2,
      custom_cosine_similarity vec1 vec2 <> Raise ZeroDivisionError /\
      custom_cosine_similarity vec1 vec2 <> Raise ValueError) /\
  (forall xs ys e,
      forallb is_number xs = true -> forallb is_number ys = true ->
      custom_cosine_similarity (PList xs) (PList ys) = Raise e ->
      e = OverflowError).
Proof.
  split; [ | split; [ reflexivity | split ] ].
  - intros a b. eexists. apply similarity_floats.
  - intros vec1 vec2.
    split; intros H;
      destruct (similarity_raises _ _ _ H) as [ He | [ He | He ] ]; discriminate.
  - intros xs ys e. apply similarity_numbers_raises.
Qed.

(* ================================================================== *)
(** ** Further properties of the match scan and of [mero_ai] *)
(* ================================================================== *)

Lemma candidate_inv (new_user_id : Z) (profile : pyval) :
  candidate new_user_id profile = true ->
  exists other_id,
    py_getitem profile "id" = Ok other_id /\
    py_ne_int other_id new_user_id = true.
Proof.
  unfold candidate. destruct (py_getitem profile "id") as [ i | ];
    [ | discriminate ].
  intros H. exists i. split; [ reflexivity | exact H ].
Qed.

Lemma nth_error_of_In {A} (l : list A) (x : A) :
  In x l -> exists j, nth_error l j = Some x.
Proof. apply In_nth_error. Qed.

(** What a call that reports a connection has gone through. *)
Lemma connection_inv (analysis : pyval) (st : state)
      (interests_output : string) (match_id : pyval) (percent : Z) :
  fst (mero_ai analysis st)
  = Ok (Sensing interests_output (Some (match_id, percent))) ->
  exists d best highest,
    analysis = PDict d /\
    find_best_match
      (PDict (store_key "id" (PInt (USER_ID_COUNTER st + 1)) d))
      (USER_ID_COUNTER st + 1)
      (user_profiles_memory st
         ++ [PDict (store_key "id" (PInt (USER_ID_COUNTER st + 1)) d)])%list
    = Ok (best, highest) /\
    py_truthy best = true /\
    py_getitem best "id" = Ok match_id.
Proof.
  unfold mero_ai. destruct (py_truthy analysis); cbn [negb]; [ | discriminate ].
  unfold ingest. destruct analysis as [ | | | | | | d ]; cbn [py_setitem fst];
    try discriminate.
  cbn [fst snd].
  destruct (find_best_match _ _ _) as [ [best highest] | ] eqn:Hfind;
    cbn [bind]; [ | discriminate ].
  destruct (py_getitem _ "interests") as [ i | ]; cbn [bind]; [ | discriminate ].
  destruct (py_join ", " i) as [ io | ]; cbn [bind fst snd]; [ | discriminate ].
  unfold respond. destruct (py_truthy best) eqn:Ht; [ | discriminate ].
  destruct (arith Z.mul B64.mul highest (NInt 100)) as [ scaled | ];
    cbn [bind]; [ | discriminate ].
  destruct (py_round scaled) as [ p | ]; cbn [bind]; [ | discriminate ].
  destruct (py_getitem best "id") as [ mid | ] eqn:Hid; cbn [bind];
    [ | discriminate ].
  intros [= _ <- _]. exists d, best, highest. repeat split; assumption.
Qed.

(** X1: a reported connection is never the caller's own profile: its
    identifier differs from the identifier the call has just assigned,
    and it is the identifier of a profile that was in the store before
    the call. *)
Theorem X1_never_matched_with_oneself
        (analysis : pyval) (st : state)
        (interests_output : string) (match_id : pyval) (percent : Z) :
  fst (mero_ai analysis st)
  = Ok (Sensing interests_output (Some (match_id, percent))) ->
  py_ne_int match_id (USER_ID_COUNTER st + 1) = true /\
  exists stored,
    In stored (user_profiles_memory st) /\
    py_getitem stored "id" = Ok match_id.
Proof.
  intros H.
  destruct (connection_inv _ _ _ _ _ H) as (d & best & highest & _ & Hfind & Ht & Hid).
  destruct (find_best_match_invariant _ _ _ _ Hfind) as [ Hno | Hinv ].
  - inversion Hno. subst. discriminate.
  - destruct Hinv as [ [Hno _] | (i & s & Hi & Hc & _) ].
    + inversion Hno. subst. discriminate.
    + cbn [fst] in Hi, Hc.
      destruct (candidate_inv _ _ Hc) as (oid & Hoid & Hne).
      assert (oid = match_id) by congruence. subst oid.
      split; [ exact Hne | ].
      apply nth_error_In in Hi. apply in_app_or in Hi.
      destruct Hi as [ Hold | [ Hnew | [] ] ].
      * exists best. split; assumption.
      * exfalso. subst best. cbn [py_getitem] in Hid.
        rewrite lookup_store_key_same in Hid. injection Hid as <-.
        cbn in Hne. rewrite Z.eqb_refl in Hne. discriminate.
Qed.

(** X2: when the store holds more than one profile and the scan
    completes, it returns a profile exactly when some candidate scores
    above the initial -1. *)
Theorem X2_match_iff_candidate_above_initial
        (profile : pyval) (new_user_id : Z) (memory : list pyval)
        (best_match : pyval) (highest_similarity : pynum) :
  (1 < List.length memory)%nat ->
  find_best_match profile new_user_id memory = Ok (best_match, highest_similarity) ->
  (best_match <> PNone <->
   exists c sc,
     In c memory /\ candidate new_user_id c = true /\
     score profile c = Ok sc /\ float_gt sc (NInt (-1)) = true).
Proof.
  intros Hlen. unfold find_best_match.
  assert (Hlt : (1 <? Z.of_nat (List.length memory)) = true)
    by (apply Z.ltb_lt; lia).
  rewrite Hlt. intros Hscan.
  destruct (scan_from_start _ _ _ _ Hscan)
    as [ [Hno Hnone] | (i & s & Hi & Hc & Hs & _ & Hgt & _) ].
  - inversion Hno. subst. split.
    + intros Hbest. exfalso. apply Hbest. reflexivity.
    + intros (c & sc & Hin & Hc & Hs & Hgt).
      destruct (nth_error_of_In _ _ Hin) as [j Hj].
      rewrite (Hnone j c sc Hj Hc Hs) in Hgt. discriminate.
  - cbn [fst] in Hi, Hc, Hs. split.
    + intros _. exists best_match, s. repeat split; try assumption.
      eapply nth_error_In, Hi.
    + intros _ ->. rewrite candidate_not_none in Hc. discriminate.
Qed.

(** X3: the scan passes over the profiles that carry the new identifier:
    when every stored profile has an "id", scanning the store gives the
    same result, or the same exception, as scanning only its candidates
    in the same order. *)
Theorem X3_scan_is_a_scan_of_the_candidates
        (profile : pyval) (new_user_id : Z) (profiles : list pyval) :
  (forall c, In c profiles -> exists i, py_getitem c "id" = Ok i) ->
  forall acc,
    scan profile new_user_id profiles acc
    = scan profile new_user_id (filter (candidate new_user_id) profiles) acc.
Proof.
  induction profiles as [ | other_profile rest IH ]; intros Hid acc;
    cbn [filter scan]; [ reflexivity | ].
  destruct (Hid other_profile (or_introl eq_refl)) as [i Hi].
  assert (Hrest : forall c, In c rest -> exists i, py_getitem c "id" = Ok i)
    by (intros c Hc; apply Hid; right; exact Hc).
  unfold candidate at 1. rewrite Hi.
  destruct (py_ne_int i new_user_id) eqn:Hne.
  - cbn [scan].
    destruct (scan_step profile new_user_id acc other_profile); cbn [bind];
      [ apply IH, Hrest | reflexivity ].
  - unfold scan_step. rewrite Hi. cbn [bind]. rewrite Hne. cbn [bind].
    apply IH, Hrest.
Qed.

(** *** The store over a run *)

Lemma run_store (analyses : list pyval) : forall st,
  exists appended,
    user_profiles_memory (snd (run analyses st))
    = (user_profiles_memory st ++ appended)%list /\
    Forall2 (fun a p => exists k, py_setitem a "id" (PInt k) = Ok p)
            (accepted analyses) appended /\
    USER_ID_COUNTER (snd (run analyses st))
    = USER_ID_COUNTER st + Z.of_nat (List.length (filter py_truthy analyses)).
Proof.
  induction analyses as [ | a rest IH ]; intros st; cbn [run].
  - exists []. rewrite app_nil_r. cbn. repeat split; [ constructor | lia ].
  - pose proof (mero_ai_state a st) as Hcall.
    destruct (mero_ai a st) as [r st1]. cbn [snd] in Hcall.
    destruct (IH st1) as (appended & Hmem & Hall & Hcount).
    destruct (run rest st1) as [rs st2]. cbn [snd] in *.
    unfold accepted in *. cbn [filter].
    destruct Hcall as [ [Ht Heq] | [ (Ht & Hd & Heq) | (Ht & d & -> & Heq) ] ].
    + injection Heq as _ ->. rewrite Ht. cbn [andb].
      exists appended. repeat split; assumption.
    + injection Heq as _ ->. rewrite Ht, Hd. cbn [andb].
      cbn [user_profiles_memory USER_ID_COUNTER] in *.
      exists appended. repeat split; try assumption.
      rewrite Hcount. cbn [List.length]. lia.
    + subst st1. rewrite Ht. cbn [andb is_dict].
      cbn [user_profiles_memory USER_ID_COUNTER] in *.
      eexists (_ :: appended). repeat split.
      * rewrite Hmem, <- app_assoc. reflexivity.
      * constructor; [ | exact Hall ]. eexists. reflexivity.
      * rewrite Hcount. cbn [List.length]. lia.
Qed.

(** X4: after any sequence of calls the counter is the number of
    analyzer results that passed line 69, and the store holds, in arrival
    order, exactly the JSON objects among them, each with an "id"
    written into it; nothing else is ever stored. *)
Theorem X4_store_holds_the_accepted_results (analyses : list pyval) :
  USER_ID_COUNTER (snd (run analyses initial_state))
  = Z.of_nat (List.length (filter py_truthy analyses)) /\
  Forall2 (fun a p => exists k, py_setitem a "id" (PInt k) = Ok p)
          (accepted analyses)
          (user_profiles_memory (snd (run analyses initial_state))).
Proof.
  destruct (run_store analyses initial_state) as (appended & Hmem & Hall & Hcount).
  split; [ rewrite Hcount; reflexivity | ].
  rewrite Hmem. exact Hall.
Qed.

(** X5: line 75 writes the new identifier over an "id" the analyzer may
    have supplied, and every other key of the analyzer result is found
    unchanged in the stored profile. *)
Theorem X5_stored_profile_keeps_the_other_keys
        (d : list (string * pyval)) (st : state) :
  py_truthy (PDict d) = true ->
  exists stored,
    user_profiles_memory (snd (mero_ai (PDict d) st))
    = (user_profiles_memory st ++ [stored])%list /\
    py_getitem stored "id" = Ok (PInt (USER_ID_COUNTER st + 1)) /\
    forall k, String.eqb k "id" = false ->
              py_getitem stored k = py_getitem (PDict d) k.
Proof.
  intros Ht. unfold mero_ai. rewrite Ht. cbn [negb].
  unfold ingest. cbn [py_setitem fst snd user_profiles_memory].
  eexists. split; [ reflexivity | split ].
  - cbn [py_getitem]. rewrite lookup_store_key_same. reflexivity.
  - intros k Hk. cbn [py_getitem].
    rewrite lookup_store_key_other by exact Hk. reflexivity.
Qed.

(** *** The exceptions of [mero_ai] *)

Lemma py_getitem_raises (v : pyval) (k : string) (e : exn) :
  py_getitem v k = Raise e -> tool_error e.
Proof.
  unfold tool_error. destruct v as [ | | | | | | d ]; cbn [py_getitem];
    try (intros [= <-]; tauto).
  destruct (lookup k d); [ discriminate | intros [= <-]; tauto ].
Qed.

Lemma arithmetic_tool_error (e : exn) : arithmetic_error e -> tool_error e.
Proof. unfold arithmetic_error, tool_error. tauto. Qed.

Lemma scan_step_raises (profile : pyval) (new_user_id : Z)
      (acc : pyval * pynum) (other_profile : pyval) (e : exn) :
  scan_step profile new_user_id acc other_profile = Raise e -> tool_error e.
Proof.
  unfold scan_step.
  destruct (py_getitem other_profile "id") as [ i | e1 ] eqn:H1; cbn [bind];
    [ | intros [= <-]; eapply py_getitem_raises, H1 ].
  destruct (py_ne_int i new_user_id); [ | discriminate ].
  destruct (py_getitem profile "personality_vector") as [ v1 | e2 ] eqn:H2;
    cbn [bind]; [ | intros [= <-]; eapply py_getitem_raises, H2 ].
  destruct (py_getitem other_profile "personality_vector") as [ v2 | e3 ] eqn:H3;
    cbn [bind]; [ | intros [= <-]; eapply py_getitem_raises, H3 ].
  destruct (custom_cosine_similarity v1 v2) as [ s | e4 ] eqn:H4; cbn [bind].
  - destruct (float_gt s (snd acc)); discriminate.
  - intros [= <-]. eapply arithmetic_tool_error, similarity_raises, H4.
Qed.

Lemma scan_raises (profile : pyval) (new_user_id : Z) (profiles : list pyval) :
  forall acc e,
    scan profile new_user_id profiles acc = Raise e -> tool_error e.
Proof.
  induction profiles as [ | other_profile rest IH ]; intros acc e; cbn [scan].
  - discriminate.
  - destruct (scan_step profile new_user_id acc other_profile) as [ acc' | e' ]
      eqn:Hstep; cbn [bind].
    + apply IH.
    + intros [= <-]. eapply scan_step_raises, Hstep.
Qed.

Lemma join_strs_raises (sep : string) (items : list pyval) (e : exn) :
  join_strs sep items = Raise e -> e = TypeError.
Proof.
  induction items as [ | v items IH ]; cbn [join_strs]; [ discriminate | ].
  destruct v; try (intros [= <-]; reflexivity).
  destruct items as [ | w items ]; [ discriminate | ].
  destruct (join_strs sep (w :: items)) as [ t | e' ]; cbn [bind];
    [ discriminate | ].
  intros [= <-]. apply IH. reflexivity.
Qed.

Lemma py_join_raises (sep : string) (v : pyval) (e : exn) :
  py_join sep v = Raise e -> e = TypeError.
Proof.
  unfold py_join. destruct (py_iter v) as [ items | e' ] eqn:Hi; cbn [bind].
  - apply join_strs_raises.
  - intros [= <-]. eapply py_iter_raises, Hi.
Qed.

Lemma mero_ai_raises (analysis : pyval) (st : state) (e : exn) :
  fst (mero_ai analysis st) = Raise e -> tool_error e.
Proof.
  unfold mero_ai. destruct (py_truthy analysis); cbn [negb fst];
    [ | discriminate ].
  unfold ingest.
  destruct (py_setitem analysis "id" (PInt (USER_ID_COUNTER st + 1)))
    as [ profile | e1 ] eqn:Hset; cbn [fst snd bind].
  2:{ intros [= <-]. destruct analysis; cbn in Hset; try discriminate;
      injection Hset as <-; unfold tool_error; tauto. }
  destruct (find_best_match profile _ _) as [ found | e2 ] eqn:Hfind; cbn [bind].
  2:{ intros [= <-]. unfold find_best_match in Hfind.
      destruct (1 <? _); [ eapply scan_raises, Hfind | discriminate ]. }
  destruct (py_getitem profile "interests") as [ i | e3 ] eqn:Hi; cbn [bind];
    [ | intros [= <-]; eapply py_getitem_raises, Hi ].
  destruct (py_join ", " i) as [ io | e4 ] eqn:Hj; cbn [bind];
    [ | intros [= <-]; rewrite (py_join_raises _ _ _ Hj); unfold tool_error; tauto ].
  destruct (find_best_match_invariant _ _ _ _ Hfind) as [ -> | Hinv ].
  - discriminate.
  - destruct (respond_after_scan _ _ _ _ io Hinv) as [ [c Hc] | Hc ];
      rewrite Hc; [ discriminate | ].
    intros [= <-]. unfold tool_error. tauto.
Qed.

Lemma run_replies (analyses : list pyval) : forall st r,
  In r (fst (run analyses st)) ->
  exists analysis st', r = fst (mero_ai analysis st').
Proof.
  induction analyses as [ | a rest IH ]; intros st r; cbn [run].
  - intros [].
  - pose proof (IH (snd (mero_ai a st)) r) as Hrest.
    destruct (mero_ai a st) as [r0 st1] eqn:Hcall. cbn [snd] in Hrest.
    destruct (run rest st1) as [rs st2]. cbn [fst] in *.
    intros [ <- | Hin ].
    + exists a, st. rewrite Hcall. reflexivity.
    + apply Hrest, Hin.
Qed.

(** X6: in a run of the process, on any machine, a call raises nothing
    but TypeError, KeyError, OverflowError and MemoryError: the division
    of line 26 never divides by zero, and [math.sqrt] and [round] never
    raise ValueError. *)
Theorem X6_exceptions_of_mero_ai (analyses : list pyval) (e : exn) :
  In (Raise e) (fst (run analyses initial_state)) ->
  e = TypeError \/ e = KeyError \/ e = OverflowError \/ e = MemoryError.
Proof.
  intros Hin.
  destruct (run_replies analyses initial_state (Raise e) Hin)
    as (analysis & st & Hr).
  apply (mero_ai_raises analysis st e). symmetry. exact Hr.
Qed.

(** *** Runs of well-formed analyzer results *)

Lemma well_formed_call (profile : pyval) (st : state) :
  well_formed profile = true ->
  forallb stored_ok (user_profiles_memory st) = true ->
  forallb stored_ok (user_profiles_memory (snd (mero_ai profile st))) = true /\
  replied (fst (mero_ai profile st)).
Proof.
  intros Hw Hst.
  destruct (ingest_well_formed profile st Hw Hst)
    as (stored & found & io & Hing & Hok & _ & Hfind).
  unfold mero_ai. rewrite (well_formed_truthy profile Hw). cbn [negb].
  rewrite Hing. cbn [fst snd bind user_profiles_memory]. split.
  - rewrite forallb_app, Hst. cbn [forallb]. rewrite Hok. reflexivity.
  - destruct (find_best_match_invariant _ _ _ _ Hfind) as [ -> | Hinv ].
    + left. exists io, None. reflexivity.
    + destruct (respond_after_scan _ _ _ _ io Hinv) as [ [c Hc] | Hc ].
      * left. exists io, c. exact Hc.
      * right. right. exact Hc.
Qed.

Lemma run_well_formed (analyses : list pyval) : forall st,
  forallb (fun a => well_formed a || negb (py_truthy a)) analyses = true ->
  forallb stored_ok (user_profiles_memory st) = true ->
  Forall replied (fst (run analyses st)).
Proof.
  induction analyses as [ | a rest IH ]; intros st Hall Hst; cbn [run].
  - constructor.
  - cbn [forallb] in Hall. apply andb_prop in Hall. destruct Hall as [Ha Hrest].
    assert (Hcall : forallb stored_ok (user_profiles_memory (snd (mero_ai a st))) = true
                    /\ replied (fst (mero_ai a st))).
    { destruct (well_formed a) eqn:Hw.
      - apply well_formed_call; assumption.
      - cbn [orb] in Ha. apply negb_true_iff in Ha.
        unfold mero_ai. rewrite Ha. cbn [negb fst snd].
        split; [ exact Hst | right; left; reflexivity ]. }
    destruct Hcall as [Hst1 Hr].
    destruct (mero_ai a st) as [r st1]. cbn [fst snd] in *.
    specialize (IH st1 Hrest Hst1).
    destruct (run rest st1) as [rs st2]. cbn [fst] in *.
    constructor; assumption.
Qed.

(** X7: in a process whose analyzer results are all either well formed
    (a JSON object with a list of floats under "personality_vector" and a
    list of strings under "interests") or false at line 69, no call
    raises TypeError or KeyError: every call returns its message or the
    apology, unless [round] meets an infinite percentage. *)
Theorem X7_well_formed_runs_do_not_crash (analyses : list pyval) :
  forallb (fun a => well_formed a || negb (py_truthy a)) analyses = true ->
  Forall (fun r =>
            (exists interests_output connection,
                r = Ok (Sensing interests_output connection))
            \/ r = Ok Sorry \/ r = Raise OverflowError)
         (fst (run analyses initial_state)).
Proof.
  intros Hall. apply (run_well_formed analyses initial_state Hall). reflexivity.
Qed.

(** *** The interests of the reply *)

Lemma join_strs_concat (sep : string) (ss : list string) :
  join_strs sep (map PStr ss) = Ok (String.concat sep ss).
Proof.
  induction ss as [ | s ss IH ]; cbn [map join_strs String.concat];
    [ reflexivity | ].
  destruct ss as [ | t ss ]; [ reflexivity | ].
  cbn [map] in *. rewrite IH. reflexivity.
Qed.

(** X9: when the analyzer result holds a list of strings under
    "interests", every message [mero_ai] returns for it lists exactly
    these strings, in their order, separated by a comma and a space. *)
Theorem X9_reply_lists_the_interests
        (d : list (string * pyval)) (interests : list string) (st : state)
        (interests_output : string) (connection : option (pyval * Z)) :
  lookup "interests" d = Some (PList (map PStr interests)) ->
  fst (mero_ai (PDict d) st) = Ok (Sensing interests_output connection) ->
  interests_output = String.concat ", " interests.
Proof.
  intros Hi. unfold mero_ai. destruct (py_truthy (PDict d)); cbn [negb fst];
    [ | discriminate ].
  unfold ingest. cbn [py_setitem fst snd].
  destruct (find_best_match _ _ _) as [ found | ]; cbn [bind]; [ | discriminate ].
  cbn [py_getitem]. rewrite lookup_store_key_other by reflexivity.
  rewrite Hi. cbn [bind]. unfold py_join. cbn [py_iter bind].
  rewrite join_strs_concat. cbn [bind]. unfold respond.
  destruct (py_truthy (fst found)); [ | intros [= <- _]; reflexivity ].
  destruct (arith Z.mul B64.mul (snd found) (NInt 100)); cbn [bind];
    [ | discriminate ].
  destruct (py_round _); cbn [bind]; [ | discriminate ].
  destruct (py_getitem (fst found) "id"); cbn [bind]; [ | discriminate ].
  intros [= <- _]. reflexivity.
Qed.

(** *** The best score does not depend on the order of the store *)

Lemma neither_below_eqb (x y : spec_float) :
  x <> S754_nan -> y <> S754_nan ->
  B64.ltb x y = false -> B64.ltb y x = false -> B64.eqb x y = true.
Proof.
  unfold B64.ltb, B64.eqb, SFltb, SFeqb.
  destruct x as [ sx | sx | | sx mx ex ], y as [ sy | sy | | sy my ey ];
    cbn [SFcompare]; intros Hx Hy; try congruence;
    try (destruct sx; try discriminate); try (destruct sy; try discriminate);
    try reflexivity;
    intros H1 H2; change (Pos.compare_cont Eq) with Pos.compare in *;
    order_cases.
Qed.

Lemma scan_invariant_same_set (profile : pyval) (new_user_id : Z)
      (l1 l2 : list pyval) (acc1 acc2 : pyval * pynum) :
  (forall c, In c l1 -> In c l2) ->
  scan_invariant profile new_user_id l1 acc1 ->
  scan_invariant profile new_user_id l2 acc2 ->
  fst acc2 = PNone -> fst acc1 = PNone.
Proof.
  intros Hsub Inv1 Inv2 Hnone2.
  destruct Inv1 as [ [-> _] | (i & s & Hi & Hc & Hs & _ & Hgt & _) ];
    [ reflexivity | exfalso ].
  destruct Inv2 as [ [_ Hnone] | (i2 & s2 & _ & Hc2 & _) ].
  - apply nth_error_In, Hsub in Hi.
    destruct (nth_error_of_In _ _ Hi) as [j Hj].
    rewrite (Hnone j _ s Hj Hc Hs) in Hgt. discriminate.
  - rewrite Hnone2, candidate_not_none in Hc2. discriminate.
Qed.

Lemma scan_invariant_not_above (profile : pyval) (new_user_id : Z)
      (l1 l2 : list pyval) (acc1 acc2 : pyval * pynum) (s1 s2 : spec_float) :
  (forall c, In c l1 -> In c l2) ->
  scan_invariant profile new_user_id l1 acc1 ->
  scan_invariant profile new_user_id l2 acc2 ->
  snd acc1 = NFloat s1 -> snd acc2 = NFloat s2 ->
  B64.ltb s2 s1 = false.
Proof.
  intros Hsub Inv1 Inv2 H1 H2.
  destruct Inv1 as [ [-> _] | (i & s & Hi & Hc & Hs & Hh & _ & _) ];
    [ discriminate | ].
  destruct Inv2 as [ [-> _] | (i2 & t & _ & _ & _ & Hh2 & _ & Hfirst) ];
    [ discriminate | ].
  assert (s = s1) by congruence. assert (t = s2) by congruence. subst s t.
  apply nth_error_In, Hsub in Hi.
  destruct (nth_error_of_In _ _ Hi) as [j Hj].
  apply (Hfirst j _ s1 Hj Hc Hs).
Qed.

Lemma scan_invariant_score_not_nan (profile : pyval) (new_user_id : Z)
      (l : list pyval) (acc : pyval * pynum) (s : spec_float) :
  scan_invariant profile new_user_id l acc -> snd acc = NFloat s ->
  s <> S754_nan.
Proof.
  intros [ [-> _] | (i & t & _ & _ & _ & Hh & Hgt & _) ] Hs;
    [ discriminate | ].
  assert (t = s) by congruence. subst t.
  apply float_gt_initial_not_nan, Hgt.
Qed.

(** X14: two scans for the same new profile over stores that hold the
    same profiles in different orders agree on whether there is a match,
    and their highest scores are equal as floats ([==]); only which of
    several equally scoring profiles is returned depends on the order. *)
Theorem X14_best_score_is_independent_of_the_order
        (profile : pyval) (new_user_id : Z) (l1 l2 : list pyval)
        (best1 best2 : pyval) (highest1 highest2 : pynum) :
  (forall c, In c l1 <-> In c l2) ->
  scan profile new_user_id l1 no_match = Ok (best1, highest1) ->
  scan profile new_user_id l2 no_match = Ok (best2, highest2) ->
  (best1 = PNone <-> best2 = PNone) /\
  (forall s1 s2,
      highest1 = NFloat s1 -> highest2 = NFloat s2 -> B64.eqb s1 s2 = true).
Proof.
  intros Hsame H1 H2.
  pose proof (scan_from_start _ _ _ _ H1) as Inv1.
  pose proof (scan_from_start _ _ _ _ H2) as Inv2.
  assert (H12 : forall c, In c l1 -> In c l2) by (intros c; apply Hsame).
  assert (H21 : forall c, In c l2 -> In c l1) by (intros c; apply Hsame).
  split.
  - split; intros Hn.
    + apply (scan_invariant_same_set profile new_user_id l2 l1 (best2, highest2) (best1, highest1));
        assumption.
    + apply (scan_invariant_same_set profile new_user_id l1 l2 (best1, highest1) (best2, highest2));
        assumption.
  - intros s1 s2 Hs1 Hs2. apply neither_below_eqb.
    + eapply (scan_invariant_score_not_nan profile new_user_id l1 (best1, highest1)); eassumption.
    + eapply (scan_invariant_score_not_nan profile new_user_id l2 (best2, highest2)); eassumption.
    + apply (scan_invariant_not_above profile new_user_id l2 l1 (best2, highest2) (best1, highest1));
        assumption.
    + apply (scan_invariant_not_above profile new_user_id l1 l2 (best1, highest1) (best2, highest2));
        assumption.
Qed.

(** *** Vectors without negative components *)

Lemma round_aux_nonneg (M E : Z) (l : location) :
  0 <= M -> nonneg (binary_round_aux B64.prec B64.emax false M E l) = true.
Proof.
  intros HM.
  pose proof (round_aux_sign_exp false M E l) as Hs.
  pose proof (round_aux_not_nan false M E l HM) as Hn.
  destruct (binary_round_aux B64.prec B64.emax false M E l) as [ s | s | | s m e ];
    cbn [nonneg]; try reflexivity; try congruence.
  - subst s. reflexivity.
  - destruct Hs as [-> _]. reflexivity.
Qed.

Lemma binary_normalize_nonneg (n e : Z) :
  0 < n -> nonneg (binary_normalize B64.prec B64.emax n e false) = true.
Proof.
  destruct n as [ | p | p ]; try lia. intros _.
  cbn [binary_normalize]. unfold binary_round.
  destruct (shl_align p e (fexp B64.prec B64.emax (Zpos (digits2_pos p) + e)))
    as [mz ez].
  apply round_aux_nonneg. lia.
Qed.

Lemma mul_nonneg (x y : spec_float) :
  nonneg x = true -> nonneg y = true ->
  B64.is_zero x && B64.is_infinity y = false ->
  B64.is_infinity x && B64.is_zero y = false ->
  nonneg (B64.mul x y) = true.
Proof.
  destruct x as [ sx | sx | | sx mx ex ], y as [ sy | sy | | sy my ey ];
    unfold B64.mul; cbn [SFmul nonneg B64.is_zero B64.is_infinity andb];
    intros Hx Hy Hzx Hzy; try discriminate; try reflexivity;
    try (destruct sx, sy; try discriminate; reflexivity).
  destruct sx, sy; try discriminate. cbn [xorb].
  apply round_aux_nonneg. lia.
Qed.

Lemma finite_nonneg_nonneg (x : spec_float) :
  finite_nonneg x = true -> nonneg x = true.
Proof. destruct x as [ s | s | | s m e ]; cbn; congruence. Qed.

Lemma finite_nonneg_not_infinity (x : spec_float) :
  finite_nonneg x = true -> B64.is_infinity x = false.
Proof. destruct x as [ s | s | | s m e ]; cbn; congruence. Qed.

Lemma mul_finite_nonneg (x y : spec_float) :
  finite_nonneg x = true -> finite_nonneg y = true ->
  nonneg (B64.mul x y) = true.
Proof.
  intros Hx Hy. apply mul_nonneg; try (apply finite_nonneg_nonneg; assumption).
  - rewrite (finite_nonneg_not_infinity y Hy). apply andb_false_r.
  - rewrite (finite_nonneg_not_infinity x Hx). reflexivity.
Qed.

Lemma add_nonneg (x y : spec_float) :
  nonneg x = true -> nonneg y = true -> nonneg (B64.add x y) = true.
Proof.
  destruct x as [ sx | sx | | sx mx ex ], y as [ sy | sy | | sy my ey ];
    unfold B64.add; cbn [SFadd nonneg]; intros Hx Hy;
    try discriminate; try reflexivity; try assumption;
    try (destruct sx, sy; first [ reflexivity | discriminate ]).
  destruct sx; [ discriminate | ]. destruct sy; [ discriminate | ].
  cbn [cond_Zopp]. apply binary_normalize_nonneg. lia.
Qed.

Lemma fold_add_nonneg (ts : list spec_float) :
  Forall (fun t => nonneg t = true) ts ->
  forall acc, nonneg acc = true -> nonneg (fold_left B64.add ts acc) = true.
Proof.
  induction 1 as [ | t ts Ht _ IH ]; intros acc Hacc; cbn [fold_left];
    [ exact Hacc | ].
  apply IH, add_nonneg; assumption.
Qed.

Lemma dot_nonneg (a b : list spec_float) :
  forallb finite_nonneg a = true -> forallb finite_nonneg b = true ->
  nonneg (dot a b) = true.
Proof.
  intros Ha Hb. unfold dot, fsum. apply fold_add_nonneg; [ | reflexivity ].
  apply Forall_forall. intros t Ht. apply in_map_iff in Ht.
  destruct Ht as ([p q] & <- & Hin). cbn [fst snd].
  rewrite forallb_forall in Ha, Hb.
  apply mul_finite_nonneg.
  - apply Ha. eapply in_combine_l, Hin.
  - apply Hb. eapply in_combine_r, Hin.
Qed.

Lemma sqrt_nonneg (x : spec_float) :
  nonneg x = true -> nonneg (B64.sqrt x) = true.
Proof.
  destruct x as [ s | s | | s m e ]; unfold B64.sqrt; cbn [SFsqrt nonneg];
    intros Hx; try discriminate; try reflexivity.
  - destruct s; [ discriminate | reflexivity ].
  - destruct s; [ discriminate | ].
    unfold SFsqrt_core_binary.
    match goal with
    | |- context [ Z.sqrtrem ?m' ] =>
        pose proof (Z.sqrtrem_sqrt m') as Hq;
        pose proof (Z.sqrt_nonneg m') as Hpos;
        destruct (Z.sqrtrem m') as [q r]
    end.
    cbn [fst] in Hq. subst q. apply round_aux_nonneg, Hpos.
Qed.

Lemma norm_nonneg (a : list spec_float) :
  forallb finite_nonneg a = true -> nonneg (norm a) = true.
Proof.
  intros Ha. unfold norm. apply sqrt_nonneg.
  unfold fsum. apply fold_add_nonneg; [ | reflexivity ].
  apply Forall_forall. intros t Ht. apply in_map_iff in Ht.
  destruct Ht as (p & <- & Hin).
  rewrite forallb_forall in Ha. apply mul_finite_nonneg; apply Ha, Hin.
Qed.

Lemma div_nonneg (x y : spec_float) :
  nonneg x = true -> B64.is_infinity x = false ->
  nonneg y = true -> B64.is_zero y = false ->
  nonneg (B64.div x y) = true.
Proof.
  destruct x as [ sx | sx | | sx mx ex ], y as [ sy | sy | | sy my ey ];
    unfold B64.div; cbn [SFdiv nonneg B64.is_zero B64.is_infinity];
    intros Hx Hfin Hy Hnz; try discriminate; try reflexivity.
  destruct sx; [ discriminate | ]. destruct sy; [ discriminate | ].
  cbn [xorb]. unfold SFdiv_core_binary.
  match goal with
  | |- context [ Z.div_eucl ?m' ?m2 ] =>
      assert (Hq : 0 <= fst (Z.div_eucl m' m2));
      [ change (0 <= m' / m2); apply Z.div_pos; [ | lia ]
      | destruct (Z.div_eucl m' m2) as [q r] ]
  end.
  - match goal with
    | |- 0 <= match ?s with _ => _ end =>
        destruct s as [ | p | p ] eqn:Hs; try lia
    end.
    apply Z.shiftl_nonneg. lia.
  - cbn [fst] in Hq. apply round_aux_nonneg, Hq.
Qed.

Lemma nonneg_above_minus_one (x : spec_float) :
  nonneg x = true -> float_gt x (NInt (-1)) = true.
Proof.
  destruct x as [ s | s | | s m e ]; cbn [nonneg]; intros Hx;
    try discriminate; try reflexivity.
  - destruct s; [ discriminate | reflexivity ].
  - destruct s; [ discriminate | reflexivity ].
Qed.

(** X8: for two vectors of floats whose components are finite and not
    negative, as the prompt asks, the similarity is a float greater than
    the initial -1 whenever the dot product does not overflow; such a
    candidate is never passed over by the scan for want of a score above
    the initial one. *)
Theorem X8_nonnegative_vectors_score_above_initial (a b : list spec_float) :
  forallb finite_nonneg a = true -> forallb finite_nonneg b = true ->
  B64.is_infinity (dot a b) = false ->
  exists x,
    custom_cosine_similarity (floats a) (floats b) = Ok x /\
    float_gt x (NInt (-1)) = true.
Proof.
  intros Ha Hb Hfin. exists (spec_similarity a b).
  split; [ apply similarity_floats | ].
  apply nonneg_above_minus_one. unfold spec_similarity.
  destruct (B64.is_zero (norm a)) eqn:Hza; [ reflexivity | ].
  destruct (B64.is_zero (norm b)) eqn:Hzb; [ reflexivity | ].
  cbn [orb].
  pose proof (norm_nonneg a Ha) as Hna. pose proof (norm_nonneg b Hb) as Hnb.
  apply div_nonneg.
  - apply dot_nonneg; assumption.
  - exact Hfin.
  - apply mul_nonneg; try assumption.
    + rewrite Hza. reflexivity.
    + rewrite Hzb. apply andb_false_r.
  - apply mul_large.
    + destruct (norm_large a); [ congruence | assumption ].
    + destruct (norm_large b); [ congruence | assumption ].
Qed.

(* ================================================================== *)
(** ** Properties of the analysis *)
(* ================================================================== *)

Lemma prefix_cons_same (a : ascii) (p r : string) :
  String.prefix (String a p) (String a r) = String.prefix p r.
Proof. cbn [String.prefix]. destruct (ascii_dec a a); [ reflexivity | congruence ]. Qed.

Lemma prefix_cons_other (a c : ascii) (p r : string) :
  c <> a -> String.prefix (String a p) (String c r) = false.
Proof.
  intros Hne. cbn [String.prefix].
  destruct (ascii_dec a c); [ congruence | reflexivity ].
Qed.

Lemma occurs_cons (pat : string) (c : ascii) (s : string) :
  occurs pat (String c s) = String.prefix pat (String c s) || occurs pat s.
Proof. reflexivity. Qed.

Lemma replace_fence_step (s : string) :
  replace_from 0 "```" "" (String "`" (String "`" (String "`" s)))
  = replace_from 0 "```" "" s.
Proof. destruct s; reflexivity. Qed.

(** Removing the fences leaves no fence: fewer than three backticks
    remain of every run of backticks. *)
Lemma replace_fence_none (n : nat) : forall s,
  (String.length s <= n)%nat ->
  occurs "```" (replace_from 0 "```" "" s) = false.
Proof.
  induction n as [ n IH ] using lt_wf_ind. intros s Hlen.
  assert (Hrec : forall t, (String.length t < String.length s)%nat ->
                           occurs "```" (replace_from 0 "```" "" t) = false).
  { intros t Ht. destruct n as [ | m ].
    - lia.
    - apply (IH m); lia. }
  clear IH Hlen.
  destruct s as [ | c1 r1 ]; [ reflexivity | ].
  destruct (ascii_dec c1 "`") as [ -> | H1 ].
  2:{ cbn [replace_from]. rewrite prefix_cons_other by exact H1.
      rewrite occurs_cons, prefix_cons_other by exact H1.
      apply Hrec. cbn [String.length]. lia. }
  destruct r1 as [ | c2 r2 ]; [ reflexivity | ].
  destruct (ascii_dec c2 "`") as [ -> | H2 ].
  2:{ pose proof (Hrec (String c2 r2)) as Hr.
      cbn [replace_from] in Hr |- *.
      rewrite prefix_cons_same, !prefix_cons_other in * by exact H2.
      rewrite occurs_cons, prefix_cons_same, prefix_cons_other by exact H2.
      apply Hr. cbn [String.length]. lia. }
  destruct r2 as [ | c3 r3 ]; [ reflexivity | ].
  destruct (ascii_dec c3 "`") as [ -> | H3 ].
  2:{ pose proof (Hrec (String "`" (String c3 r3))) as Hr.
      cbn [replace_from] in Hr |- *.
      rewrite !prefix_cons_same, !prefix_cons_other in * by exact H3.
      rewrite occurs_cons, !prefix_cons_same, prefix_cons_other by exact H3.
      apply Hr. cbn [String.length]. lia. }
  rewrite replace_fence_step. apply Hrec. cbn [String.length]. lia.
Qed.

(** X10: the text handed to [json.loads] never contains a Markdown
    fence: no three consecutive backticks are left by line 43, whatever
    the model answers. *)
Theorem X10_cleaned_response_has_no_fence (text : string) :
  occurs "```" (clean_response text) = false.
Proof.
  unfold clean_response.
  change (py_replace "```" "") with (replace_from 0 "```" "").
  eapply replace_fence_none. apply Nat.le_refl.
Qed.

(** *** A fenced answer *)

Lemma lstrip_spaces (before s : string) :
  all_chars is_space before = true -> lstrip (before ++ s) = lstrip s.
Proof.
  unfold all_chars. induction before as [ | c before IH ];
    cbn [list_ascii_of_string forallb append lstrip]; intros H.
  - reflexivity.
  - apply andb_prop in H. destruct H as [Hc Hrest]. rewrite Hc. apply IH, Hrest.
Qed.

Lemma rstrip_spaces (after : string) :
  all_chars is_space after = true -> rstrip after = EmptyString.
Proof.
  unfold all_chars. induction after as [ | c after IH ];
    cbn [list_ascii_of_string forallb rstrip]; intros H.
  - reflexivity.
  - apply andb_prop in H. destruct H as [Hc Hrest].
    rewrite (IH Hrest), Hc. reflexivity.
Qed.

Lemma rstrip_app (s t : string) :
  rstrip (s ++ t)
  = match rstrip t with
    | EmptyString => rstrip s
    | kept => (s ++ kept)%string
    end.
Proof.
  induction s as [ | c s IH ]; cbn [append rstrip].
  - destruct (rstrip t); reflexivity.
  - rewrite IH. destruct (rstrip t) as [ | k kept ]; [ reflexivity | ].
    destruct s; reflexivity.
Qed.

Lemma rstrip_fence_end (s after : string) :
  all_chars is_space after = true ->
  rstrip (s ++ "```" ++ after) = (s ++ "```")%string.
Proof.
  intros Ha. rewrite rstrip_app.
  change ("```" ++ after)%string
    with (String "`" (String "`" (String "`" after))).
  cbn [rstrip]. rewrite (rstrip_spaces after Ha). reflexivity.
Qed.

Lemma not_backtick (c : ascii) : negb (is_backtick c) = true -> c <> "`"%char.
Proof.
  unfold is_backtick. intros H ->. discriminate.
Qed.

(** Outside a fence nothing is replaced. *)
Lemma replace_json_fence_body (body : string) :
  all_chars (fun c => negb (is_backtick c)) body = true ->
  replace_from 0 "```json" "" (body ++ "```") = (body ++ "```")%string.
Proof.
  unfold all_chars. induction body as [ | c body IH ];
    cbn [list_ascii_of_string forallb append]; intros H.
  - reflexivity.
  - apply andb_prop in H. destruct H as [Hc Hrest].
    cbn [replace_from]. rewrite prefix_cons_other by (apply not_backtick, Hc).
    rewrite (IH Hrest). reflexivity.
Qed.

Lemma replace_fence_body (body : string) :
  all_chars (fun c => negb (is_backtick c)) body = true ->
  replace_from 0 "```" "" (body ++ "```") = body.
Proof.
  unfold all_chars. induction body as [ | c body IH ];
    cbn [list_ascii_of_string forallb append]; intros H.
  - reflexivity.
  - apply andb_prop in H. destruct H as [Hc Hrest].
    cbn [replace_from]. rewrite prefix_cons_other by (apply not_backtick, Hc).
    rewrite (IH Hrest). reflexivity.
Qed.

Lemma replace_json_fence_start (s : string) :
  replace_from 0 "```json" "" ("```json" ++ s) = replace_from 0 "```json" "" s.
Proof. destruct s; reflexivity. Qed.

(** The cleaning unwraps a fenced answer. *)
Lemma clean_fenced (before body after : string) :
  all_chars is_space before = true ->
  all_chars is_space after = true ->
  all_chars (fun c => negb (is_backtick c)) body = true ->
  clean_response (fenced before body after) = body.
Proof.
  intros Hb Ha Hbody. unfold clean_response, fenced, py_strip.
  rewrite (lstrip_spaces before _ Hb).
  change (lstrip ("```json" ++ body ++ "```" ++ after))
    with ("```json" ++ (body ++ "```" ++ after))%string.
  replace ("```json" ++ body ++ "```" ++ after)%string
    with (("```json" ++ body) ++ "```" ++ after)%string by reflexivity.
  rewrite (rstrip_fence_end _ after Ha).
  change (py_replace "```json" "") with (replace_from 0 "```json" "").
  change (py_replace "```" "") with (replace_from 0 "```" "").
  change (("```json" ++ body) ++ "```")%string
    with ("```json" ++ (body ++ "```"))%string.
  rewrite replace_json_fence_start, (replace_json_fence_body body Hbody).
  apply replace_fence_body, Hbody.
Qed.

(** X11: when the model wraps its answer in a Markdown fence, three
    backticks and the word json before it and three backticks after it,
    possibly with whitespace around, and the answer itself holds no
    backtick, the analysis returns what [json.loads] makes of the bare
    answer, and [None] if [json.loads] raises. *)
Theorem X11_fenced_answer_is_unwrapped
        (generate_content : string -> result string)
        (json_loads : string -> result pyval)
        (user_text before body after : string) :
  all_chars is_space before = true ->
  all_chars is_space after = true ->
  all_chars (fun c => negb (is_backtick c)) body = true ->
  generate_content (prompt user_text) = Ok (fenced before body after) ->
  analyze_text_with_gemini generate_content json_loads user_text
  = match json_loads body with
    | Ok parsed => parsed
    | Raise _ => PNone
    end.
Proof.
  intros Hb Ha Hbody Hgen. unfold analyze_text_with_gemini.
  rewrite Hgen. cbn [bind]. rewrite (clean_fenced before body after Hb Ha Hbody).
  reflexivity.
Qed.

(** X12: a failure of the analysis never reaches the caller and never
    touches the store: when the call to the model raises, or
    [json.loads] raises on the cleaned answer, [mero_ai] returns the
    apology and both globals are as before. *)
Theorem X12_failed_analysis_gives_the_apology
        (generate_content : string -> result string)
        (json_loads : string -> result pyval)
        (user_text : string) (st : state) :
  (forall text,
      generate_content (prompt user_text) = Ok text ->
      exists e, json_loads (clean_response text) = Raise e) ->
  mero_ai_tool generate_content json_loads user_text st = (Ok Sorry, st).
Proof.
  intros Hfail. unfold mero_ai_tool, analyze_text_with_gemini.
  destruct (generate_content (prompt user_text)) as [ text | e ] eqn:Hgen;
    cbn [bind]; [ | reflexivity ].
  destruct (Hfail text eq_refl) as [e ->]. reflexivity.
Qed.

(* ================================================================== *)
(** ** The reply, end to end *)
(* ================================================================== *)

Lemma of_Z_100 : B64.of_Z 100 = S754_finite false 7036874417766400 (-46).
Proof. reflexivity. Qed.

(** What a call that reports a connection has computed. *)
Lemma connection_percent (analysis : pyval) (st : state)
      (interests_output : string) (match_id : pyval) (percent : Z) :
  fst (mero_ai analysis st)
  = Ok (Sensing interests_output (Some (match_id, percent))) ->
  exists d best highest scaled,
    analysis = PDict d /\
    find_best_match
      (PDict (store_key "id" (PInt (USER_ID_COUNTER st + 1)) d))
      (USER_ID_COUNTER st + 1)
      (user_profiles_memory st
         ++ [PDict (store_key "id" (PInt (USER_ID_COUNTER st + 1)) d)])%list
    = Ok (best, highest) /\
    arith Z.mul B64.mul highest (NInt 100) = Ok scaled /\
    py_round scaled = Ok percent /\
    py_getitem best "id" = Ok match_id.
Proof.
  unfold mero_ai. destruct (py_truthy analysis); cbn [negb]; [ | discriminate ].
  unfold ingest. destruct analysis as [ | | | | | | d ]; cbn [py_setitem fst];
    try discriminate.
  cbn [fst snd].
  destruct (find_best_match _ _ _) as [ [best highest] | ] eqn:Hfind;
    cbn [bind]; [ | discriminate ].
  destruct (py_getitem _ "interests") as [ i | ]; cbn [bind]; [ | discriminate ].
  destruct (py_join ", " i) as [ io | ]; cbn [bind fst snd]; [ | discriminate ].
  unfold respond. destruct (py_truthy best) eqn:Ht; [ | discriminate ].
  destruct (arith Z.mul B64.mul highest (NInt 100)) as [ scaled | ] eqn:Hscaled;
    cbn [bind]; [ | discriminate ].
  destruct (py_round scaled) as [ p | ] eqn:Hround; cbn [bind]; [ | discriminate ].
  destruct (py_getitem best "id") as [ mid | ] eqn:Hid; cbn [bind];
    [ | discriminate ].
  intros [= _ <- <-]. exists d, best, highest, scaled.
  repeat split; assumption.
Qed.

(** X13: a reported connection is a best one: the identifier is the one
    of a profile stored before the call, the percentage is [round] of
    100 times the similarity of that profile to the new one, and no
    profile stored before the call is more similar to the new one. *)
Theorem X13_reply_reports_a_best_stored_profile
        (analysis : pyval) (st : state)
        (interests_output : string) (match_id : pyval) (percent : Z) :
  fst (mero_ai analysis st)
  = Ok (Sensing interests_output (Some (match_id, percent))) ->
  exists d best s,
    analysis = PDict d /\
    In best (user_profiles_memory st) /\
    py_getitem best "id" = Ok match_id /\
    score (PDict (store_key "id" (PInt (USER_ID_COUNTER st + 1)) d)) best = Ok s /\
    py_round (NFloat (B64.mul s (B64.of_Z 100))) = Ok percent /\
    forall c sc,
      In c (user_profiles_memory st) ->
      candidate (USER_ID_COUNTER st + 1) c = true ->
      score (PDict (store_key "id" (PInt (USER_ID_COUNTER st + 1)) d)) c = Ok sc ->
      B64.ltb s sc = false.
Proof.
  intros H.
  destruct (connection_percent _ _ _ _ _ H)
    as (d & best & highest & scaled & -> & Hfind & Hscaled & Hround & Hid).
  destruct (find_best_match_invariant _ _ _ _ Hfind) as [ Hno | Hinv ].
  - exfalso. inversion Hno. subst. cbn in Hid. discriminate.
  - destruct Hinv as [ [Hno _] | (i & s & Hi & Hc & Hs & Hh & _ & Hfirst) ].
    + exfalso. inversion Hno. subst. cbn in Hid. discriminate.
    + cbn [fst snd] in Hi, Hc, Hs, Hh. subst highest.
      exists d, best, s.
      assert (Hscaled' : scaled = NFloat (B64.mul s (B64.of_Z 100))).
      { unfold arith in Hscaled. cbn [num_to_float bind] in Hscaled.
        unfold to_float in Hscaled. rewrite of_Z_100 in *.
        cbn [B64.is_infinity bind] in Hscaled. congruence. }
      subst scaled.
      assert (Hold : In best (user_profiles_memory st)).
      { apply nth_error_In in Hi. apply in_app_or in Hi.
        destruct Hi as [ Hold | [ Hnew | [] ] ]; [ exact Hold | exfalso ].
        subst best. destruct (candidate_inv _ _ Hc) as (oid & Hoid & Hne).
        cbn [py_getitem] in Hoid. rewrite lookup_store_key_same in Hoid.
        injection Hoid as <-. cbn in Hne. rewrite Z.eqb_refl in Hne.
        discriminate. }
      repeat split; try assumption.
      intros c sc Hin Hcc Hsc.
      assert (Hin' : In c (user_profiles_memory st
                              ++ [PDict (store_key "id"
                                           (PInt (USER_ID_COUNTER st + 1)) d)]))
        by (apply in_or_app; left; exact Hin).
      destruct (nth_error_of_In _ c Hin') as [j Hj].
      apply (Hfirst j c sc Hj Hcc Hsc).
Qed.

(** *** Interests given as one string *)

Lemma lookup_truthy (k : string) (d : list (string * pyval)) (v : pyval) :
  lookup k d = Some v -> py_truthy (PDict d) = true.
Proof. destruct d; [ discriminate | reflexivity ]. Qed.

(** X15: when the analyzer gives the interests as one string instead of
    a list, line 91 does not fail: once the scan of lines 79-88 has
    completed, the call returns a message, and the message lists the
    characters of that string, separated by a comma and a space.  Only
    [round], at line 100, can still raise, on an infinite percentage. *)
Theorem X15_interests_string_is_split_into_characters
        (d : list (string * pyval)) (interests : string) (st : state)
        (found : pyval * pynum) :
  lookup "interests" d = Some (PStr interests) ->
  find_best_match
    (PDict (store_key "id" (PInt (USER_ID_COUNTER st + 1)) d))
    (USER_ID_COUNTER st + 1)
    (user_profiles_memory st
       ++ [PDict (store_key "id" (PInt (USER_ID_COUNTER st + 1)) d)])%list
  = Ok found ->
  (exists connection,
      fst (mero_ai (PDict d) st)
      = Ok (Sensing (String.concat ", " (chars interests)) connection))
  \/ fst (mero_ai (PDict d) st) = Raise OverflowError.
Proof.
  intros Hi Hfind. unfold mero_ai. rewrite (lookup_truthy _ _ _ Hi). cbn [negb].
  unfold ingest. cbn [py_setitem fst snd]. rewrite Hfind. cbn [bind].
  cbn [py_getitem]. rewrite lookup_store_key_other by reflexivity.
  rewrite Hi. cbn [bind]. unfold py_join. cbn [py_iter bind].
  rewrite join_strs_concat. cbn [bind].
  destruct (find_best_match_invariant _ _ _ _ Hfind) as [ -> | Hinv ].
  - left. exists None. reflexivity.
  - apply (respond_after_scan _ _ _ _ _ Hinv).
Qed.

(* ================================================================== *)
(** ** What [custom_cosine_similarity] accepts *)
(* ================================================================== *)

Lemma py_mul_self_number (p r : pyval) :
  py_mul p p = Ok r -> is_number p = true.
Proof.
  unfold py_mul, is_number. destruct (as_num p); [ reflexivity | discriminate ].
Qed.

Lemma sum_squares_ok_numbers (xs : list pyval) : forall acc r,
  sum_from (fun p => py_mul p p) xs acc = Ok r -> forallb is_number xs = true.
Proof.
  induction xs as [ | x xs IH ]; intros acc r; cbn [sum_from forallb].
  - reflexivity.
  - destruct (py_mul x x) as [ t | ] eqn:Hx; cbn [bind]; [ | discriminate ].
    destruct (py_add acc t) as [ acc' | ]; cbn [bind]; [ | discriminate ].
    intros H. rewrite (py_mul_self_number x t Hx). cbn [andb].
    eapply IH, H.
Qed.

Lemma magnitude_ok_numbers (xs : list pyval) (m : spec_float) :
  magnitude xs = Ok m -> forallb is_number xs = true.
Proof.
  unfold magnitude, py_sum.
  destruct (sum_from (fun p => py_mul p p) xs (PInt 0)) as [ sq | ] eqn:Hs;
    cbn [bind]; [ | discriminate ].
  intros _. eapply sum_squares_ok_numbers, Hs.
Qed.

(** X16: [custom_cosine_similarity] returns a number only for two
    iterables of numbers: a component that is not an int, a bool or a
    float, in either argument and at any position, even beyond the
    length of the other argument, makes the call raise. *)
Theorem X16_similarity_needs_numbers (vec1 vec2 : pyval) (r : spec_float) :
  custom_cosine_similarity vec1 vec2 = Ok r ->
  exists xs1 xs2,
    py_iter vec1 = Ok xs1 /\ py_iter vec2 = Ok xs2 /\
    forallb is_number xs1 = true /\ forallb is_number xs2 = true.
Proof.
  rewrite similarity_unfold.
  destruct (py_iter vec1) as [ xs1 | ]; cbn [bind]; [ | discriminate ].
  destruct (py_iter vec2) as [ xs2 | ]; cbn [bind]; [ | discriminate ].
  destruct (dot_product_of xs1 xs2); cbn [bind]; [ | discriminate ].
  destruct (magnitude xs1) as [ m1 | ] eqn:H1; cbn [bind]; [ | discriminate ].
  destruct (magnitude xs2) as [ m2 | ] eqn:H2; cbn [bind]; [ | discriminate ].
  intros _. exists xs1, xs2. repeat split.
  - eapply magnitude_ok_numbers, H1.
  - eapply magnitude_ok_numbers, H2.
Qed.

End Machine.

(* ================================================================== *)
(** ** Numbers and the machine *)
(* ================================================================== *)








(* ================================================================== *)
(** ** The properties at concrete inputs *)
(* ================================================================== *)

(** The inputs at which statements of the specification fail, and an
    instance of every conditional theorem.  They run on [ample_memory];
    but for the instance of X6 they multiply numbers only, and so behave
    the same on every machine. *)

(** C1, as stated, fails: a vector of two floats and a vector of one
    float have unequal lengths and [custom_cosine_similarity] returns the
    number 1.0 for them, silently dropping the second component from the
    dot product. *)
Lemma C1_unequal_lengths_return_a_number :
  List.length [one; B64.zero] <> List.length [one] /\
  custom_cosine_similarity ample_memory (floats [one; B64.zero]) (floats [one])
  = Ok one.
Proof. split; [ discriminate | reflexivity ]. Qed.



(** C4, as stated, fails: the all-zero 5-vector has magnitude exactly
    0.0, and its similarity with the 5-vector [10^200, 0, 0, 0, 0] is
    not 0.0 but an OverflowError, raised by [math.sqrt] on the second
    sum of squares before the magnitudes are tested. *)
Lemma C4_zero_vector_against_a_huge_int :
  magnitude ample_memory [PInt 0; PInt 0; PInt 0; PInt 0; PInt 0] = Ok B64.zero /\
  custom_cosine_similarity ample_memory
    (PList [PInt 0; PInt 0; PInt 0; PInt 0; PInt 0])
    (PList [PInt (10 ^ 200); PInt 0; PInt 0; PInt 0; PInt 0])
  = Raise OverflowError.
Proof. vm_compute. split; reflexivity. Qed.

(** The zero 5-vector against a 5-vector of floats. *)
Lemma C4_witness :
  custom_cosine_similarity ample_memory (floats zeros5) (floats axis1) = Ok B64.zero /\
  B64.is_zero (norm zeros5) = true.
Proof.
  destruct (C4_zero_norm_gives_zero ample_memory) as [_ H].
  destruct (H zeros5 axis1) as (_ & Hsim & Hzero).
  split; [ apply Hsim | apply Hzero ]; reflexivity.
Defined.

(** C5, as stated, fails: an analyzer result without the "interests"
    key is stored and then line 91 raises KeyError; and an analyzer
    result without the "personality_vector" key is ingested into the
    empty store, after which the scan of every later call, whatever its
    analyzer result, raises KeyError on the stored profile. *)
Lemma C5_missing_keys_raise :
  fst (mero_ai ample_memory
               (PDict [("personality_vector", floats axis1)]) initial_state)
  = Raise KeyError /\
  fst (run ample_memory
           [PDict [("interests", PList [PStr "tea"])]; alice; bob]
           initial_state)
  = [Ok (Sensing "tea" None); Raise KeyError; Raise KeyError].
Proof. split; reflexivity. Qed.

Lemma C5_witness :
  let st := snd (mero_ai ample_memory alice initial_state) in
  (exists ingested, fst (ingest ample_memory bob st) = Ok ingested) /\
  forallb stored_ok (user_profiles_memory (snd (mero_ai ample_memory bob st)))
  = true /\
  ((exists interests_output connection,
       fst (mero_ai ample_memory bob st)
       = Ok (Sensing interests_output connection))
   \/ fst (mero_ai ample_memory bob st) = Raise OverflowError).
Proof.
  apply (C5_well_formed_results_are_ingested
           ample_memory bob (snd (mero_ai ample_memory alice initial_state)));
    reflexivity.
Defined.

(** C6, as stated, fails: an analyzer result that is a JSON array passes
    the check of line 69 and consumes identifier 1 before line 75 raises
    TypeError; the first successful ingestion of the process then
    receives identifier 2. *)
Lemma C6_first_stored_identifier_can_be_two :
  fst (run ample_memory [PList [PInt 1]; alice] initial_state)
  = [Raise TypeError; Ok (Sensing "chess" None)] /\
  stored_ids (snd (run ample_memory [PList [PInt 1]; alice] initial_state)) = [Some 2].
Proof. split; reflexivity. Qed.

Lemma C6_witness :
  USER_ID_COUNTER (snd (run ample_memory [alice; PNone; bob; carol] initial_state)) = 3 /\
  stored_ids (snd (run ample_memory [alice; PNone; bob; carol] initial_state))
  = [Some 1; Some 2; Some 3].
Proof.
  destruct (C6_identifiers_increase ample_memory [alice; PNone; bob; carol]) as (_ & H & _ & _).
  specialize (H eq_refl). vm_compute in H |- *. exact H.
Defined.

Lemma C7_witness :
  mero_ai ample_memory PNone (snd (mero_ai ample_memory alice initial_state))
  = (Ok Sorry, snd (mero_ai ample_memory alice initial_state)) /\
  mero_ai ample_memory (PDict []) (snd (mero_ai ample_memory alice initial_state))
  = (Ok Sorry, snd (mero_ai ample_memory alice initial_state)).
Proof.
  destruct (C7_no_analysis_leaves_the_store ample_memory (snd (mero_ai ample_memory alice initial_state)))
    as [H1 H2].
  split; [ exact H1 | apply H2; reflexivity ].
Defined.

Lemma C8_witness :
  find_best_match ample_memory (with_id 1 alice) 1 [with_id 1 alice] = Ok no_match /\
  fst (mero_ai ample_memory alice initial_state) = Ok (Sensing "chess" None).
Proof.
  destruct (C8_no_candidate_no_match ample_memory) as (_ & _ & Hnone & _ & Hwf).
  split.
  - apply Hnone. intros c [ <- | [] ]. exists (PInt 1). split; reflexivity.
  - destruct (Hwf alice 0 eq_refl) as [io H]. vm_compute in H |- *. reflexivity.
Defined.

Lemma C9_witness :
  custom_cosine_similarity ample_memory (PList [PInt 3; PFloat one; PBool true])
                           (PList [PFloat minus_one; PInt 4; PInt 0])
  = custom_cosine_similarity ample_memory (PList [PFloat minus_one; PInt 4; PInt 0])
                             (PList [PInt 3; PFloat one; PBool true]).
Proof.
  apply (C9_similarity_is_symmetric ample_memory
           [PInt 3; PFloat one; PBool true] [PFloat minus_one; PInt 4; PInt 0]);
    reflexivity.
Defined.

(** C10, as stated, fails: [10^160] and [1] are lists of numbers and the
    call raises OverflowError, as the sum of squares 10^320 is too large
    for [math.sqrt]. *)
Lemma C10_huge_int_overflows :
  forallb is_number [PInt (10 ^ 160)] = true /\
  forallb is_number [PInt 1] = true /\
  custom_cosine_similarity ample_memory (PList [PInt (10 ^ 160)]) (PList [PInt 1])
  = Raise OverflowError.
Proof. vm_compute. repeat split; reflexivity. Qed.

Lemma C10_witness :
  custom_cosine_similarity ample_memory (PList [PInt (10 ^ 160)]) (PList [PInt 1])
  = Raise OverflowError /\
  OverflowError = OverflowError /\
  exists x, custom_cosine_similarity ample_memory (floats axis1) (floats axis2) = Ok x.
Proof.
  destruct (C10_similarity_total_on_floats ample_memory) as (Htotal & _ & _ & H).
  split; [ vm_compute; reflexivity | split ].
  - apply (H [PInt (10 ^ 160)] [PInt 1] OverflowError);
      vm_compute; reflexivity.
  - apply Htotal.
Defined.

Lemma X1_witness :
  py_ne_int (PInt 1) (USER_ID_COUNTER (snd (mero_ai ample_memory alice initial_state)) + 1) = true /\
  exists stored,
    In stored (user_profiles_memory (snd (mero_ai ample_memory alice initial_state))) /\
    py_getitem stored "id" = Ok (PInt 1).
Proof.
  apply (X1_never_matched_with_oneself ample_memory
           bob (snd (mero_ai ample_memory alice initial_state)) "tea" (PInt 1) 100).
  vm_compute. reflexivity.
Defined.

Lemma X2_witness :
  with_id 1 alice <> PNone <->
  exists c sc,
    In c [with_id 1 alice; with_id 2 bob] /\ candidate 2 c = true /\
    score ample_memory (with_id 2 bob) c = Ok sc /\ float_gt sc (NInt (-1)) = true.
Proof.
  apply (X2_match_iff_candidate_above_initial ample_memory
           (with_id 2 bob) 2 [with_id 1 alice; with_id 2 bob]
           (with_id 1 alice) (NFloat one)).
  - cbn. lia.
  - vm_compute. reflexivity.
Defined.

Lemma X3_witness :
  scan ample_memory (with_id 3 carol) 3 [with_id 1 alice; with_id 2 bob; with_id 3 carol] no_match
  = scan ample_memory (with_id 3 carol) 3
         (filter (candidate 3) [with_id 1 alice; with_id 2 bob; with_id 3 carol])
         no_match.
Proof.
  apply (X3_scan_is_a_scan_of_the_candidates ample_memory
           (with_id 3 carol) 3 [with_id 1 alice; with_id 2 bob; with_id 3 carol]).
  intros c [ <- | [ <- | [ <- | [] ] ] ]; eexists; reflexivity.
Defined.

Lemma X5_witness :
  exists stored,
    user_profiles_memory
      (snd (mero_ai ample_memory (PDict [("id", PStr "root"); ("interests", PList [])])
                    initial_state))
    = ([] ++ [stored])%list /\
    py_getitem stored "id" = Ok (PInt (0 + 1)) /\
    forall k, String.eqb k "id" = false ->
              py_getitem stored k
              = py_getitem (PDict [("id", PStr "root"); ("interests", PList [])]) k.
Proof.
  apply (X5_stored_profile_keeps_the_other_keys ample_memory
           [("id", PStr "root"); ("interests", PList [])] initial_state).
  reflexivity.
Defined.

(** A vector holding an int meets a vector holding a str: on a machine
    without memory for the repetition the second call raises
    MemoryError; with the memory, the repeated str cannot be added to
    the sum and the call raises TypeError. *)
Lemma X6_witness :
  fst (run no_memory
           [profile_of [PInt 2] ["tea"]; profile_of [PStr "ab"] ["chess"]]
           initial_state)
  = [Ok (Sensing "tea" None); Raise MemoryError] /\
  fst (run ample_memory
           [profile_of [PInt 2] ["tea"]; profile_of [PStr "ab"] ["chess"]]
           initial_state)
  = [Ok (Sensing "tea" None); Raise TypeError] /\
  (MemoryError = TypeError \/ MemoryError = KeyError \/
   MemoryError = OverflowError \/ MemoryError = MemoryError).
Proof.
  split; [ vm_compute; reflexivity | split; [ vm_compute; reflexivity | ] ].
  apply (X6_exceptions_of_mero_ai
           no_memory
           [profile_of [PInt 2] ["tea"]; profile_of [PStr "ab"] ["chess"]]
           MemoryError).
  vm_compute. right. left. reflexivity.
Defined.

Lemma X7_witness :
  Forall (fun r =>
            (exists interests_output connection,
                r = Ok (Sensing interests_output connection))
            \/ r = Ok Sorry \/ r = Raise OverflowError)
         (fst (run ample_memory [alice; PNone; bob; erin; PDict []] initial_state)).
Proof.
  apply (X7_well_formed_runs_do_not_crash ample_memory [alice; PNone; bob; erin; PDict []]).
  reflexivity.
Defined.

Lemma X8_witness :
  exists x,
    custom_cosine_similarity ample_memory (floats axis1) (floats axis2) = Ok x /\
    float_gt x (NInt (-1)) = true.
Proof.
  apply (X8_nonnegative_vectors_score_above_initial ample_memory axis1 axis2); reflexivity.
Defined.

Lemma X9_witness : "hiking, film" = String.concat ", " ["hiking"; "film"].
Proof.
  apply (X9_reply_lists_the_interests ample_memory
           [("personality_vector", PList (map PFloat axis1));
            ("interests", PList (map PStr ["hiking"; "film"]))]
           ["hiking"; "film"] initial_state "hiking, film" None);
    reflexivity.
Defined.

Lemma X11_witness :
  analyze_text_with_gemini
    (fun _ => Ok (fenced nl "{}" (nl ++ " ")))
    (fun s => if String.eqb s "{}" then Ok (PDict []) else Raise ValueError)
    "hello"
  = match (if String.eqb "{}" "{}" then Ok (PDict []) else Raise ValueError) with
    | Ok parsed => parsed
    | Raise _ => PNone
    end.
Proof.
  apply (X11_fenced_answer_is_unwrapped
           (fun _ => Ok (fenced nl "{}" (nl ++ " ")))
           (fun s => if String.eqb s "{}" then Ok (PDict []) else Raise ValueError)
           "hello" nl "{}" (nl ++ " "));
    reflexivity.
Defined.

Lemma X12_witness :
  mero_ai_tool ample_memory (fun _ => Raise OverflowError) (fun _ => Ok (PDict []))
               "hello" (snd (mero_ai ample_memory alice initial_state))
  = (Ok Sorry, snd (mero_ai ample_memory alice initial_state)) /\
  mero_ai_tool ample_memory (fun _ => Ok "not json") (fun _ => Raise ValueError)
               "hello" (snd (mero_ai ample_memory alice initial_state))
  = (Ok Sorry, snd (mero_ai ample_memory alice initial_state)).
Proof.
  split.
  - apply (X12_failed_analysis_gives_the_apology ample_memory
             (fun _ => Raise OverflowError) (fun _ => Ok (PDict []))).
    intros text H. discriminate.
  - apply (X12_failed_analysis_gives_the_apology ample_memory
             (fun _ => Ok "not json") (fun _ => Raise ValueError)).
    intros text _. exists ValueError. reflexivity.
Defined.

Lemma X13_witness :
  exists d best s,
    bob = PDict d /\
    In best (user_profiles_memory (snd (mero_ai ample_memory alice initial_state))) /\
    py_getitem best "id" = Ok (PInt 1) /\
    score ample_memory (PDict (store_key "id" (PInt (1 + 1)) d)) best = Ok s /\
    py_round (NFloat (B64.mul s (B64.of_Z 100))) = Ok 100 /\
    forall c sc,
      In c (user_profiles_memory (snd (mero_ai ample_memory alice initial_state))) ->
      candidate (1 + 1) c = true ->
      score ample_memory (PDict (store_key "id" (PInt (1 + 1)) d)) c = Ok sc ->
      B64.ltb s sc = false.
Proof.
  apply (X13_reply_reports_a_best_stored_profile ample_memory
           bob (snd (mero_ai ample_memory alice initial_state)) "tea" (PInt 1) 100).
  vm_compute. reflexivity.
Defined.

Lemma X14_witness :
  (with_id 1 alice = PNone <-> with_id 2 bob = PNone) /\
  (forall s1 s2,
      NFloat one = NFloat s1 -> NFloat one = NFloat s2 -> B64.eqb s1 s2 = true).
Proof.
  apply (X14_best_score_is_independent_of_the_order ample_memory
           (with_id 4 dave) 4
           [with_id 1 alice; with_id 2 bob; with_id 3 carol]
           [with_id 3 carol; with_id 2 bob; with_id 1 alice]
           (with_id 1 alice) (with_id 2 bob) (NFloat one) (NFloat one)).
  - intros c. cbn [In]. tauto.
  - vm_compute. reflexivity.
  - vm_compute. reflexivity.
Defined.

Lemma X15_witness :
  (exists connection,
      fst (mero_ai ample_memory
                   (PDict [("personality_vector", floats axis1);
                           ("interests", PStr "tea")])
                   (snd (mero_ai ample_memory alice initial_state)))
      = Ok (Sensing (String.concat ", " (chars "tea")) connection))
  \/ fst (mero_ai ample_memory
                  (PDict [("personality_vector", floats axis1);
                          ("interests", PStr "tea")])
                  (snd (mero_ai ample_memory alice initial_state)))
     = Raise OverflowError.
Proof.
  apply (X15_interests_string_is_split_into_characters
           ample_memory
           [("personality_vector", floats axis1); ("interests", PStr "tea")]
           "tea" (snd (mero_ai ample_memory alice initial_state))
           (with_id 1 alice, NFloat one)).
  - reflexivity.
  - vm_compute. reflexivity.
Defined.

Lemma X16_witness :
  exists xs1 xs2,
    py_iter (PList [PInt 3; PBool true]) = Ok xs1 /\
    py_iter (PList [PFloat one]) = Ok xs2 /\
    forallb is_number xs1 = true /\ forallb is_number xs2 = true.
Proof.
  apply (X16_similarity_needs_numbers ample_memory
           (PList [PInt 3; PBool true]) (PList [PFloat one])
           (S754_finite false 8544979495185814 (-53))).
  vm_compute. reflexivity.
Defined.
